(** * MovingAgentSimulation: a shallow embedding of [simulation.py]

    The simulation keeps a two-dimensional numpy array of disease states,
    updates it in place in three stochastic phases (recover, symptom,
    infect) and then swaps neighbouring sites.  The embedding below follows
    the Python text method by method:

    - numpy arrays are records of a shape and a row-major buffer, indexed
      the way numpy does it (negative indices wrap, anything else out of
      range raises [IndexError]);
    - Python exceptions are the [Raise] branch of a small error monad;
    - the global numpy generator is passed explicitly: a [RandomState] is
      the sequence of variates that the next calls will return, and
      [randint] reduces raw integers into the range it is asked for, so
      that quantifying over generator states covers every sequence of
      draws that numpy can return;
    - probabilities and draws are rationals (every finite float is one, and
      the program only compares them); site values are integers: the
      float64 array holds 1.0 .. 4.0, or the value that [initialize] is
      given, which it holds exactly up to 2^53 in magnitude;
    - the one float product of the program, the number of exchange attempts
      [int(moving * nx * ny)], is taken on the rationals; the results on
      [exchange] hold for every list of attempts that starts on the grid,
      hence for every such number. *)

From Stdlib Require Import ZArith QArith Qround Lia Bool.
From stdpp Require Import base list.

Local Open Scope Z_scope.

(** ** Exceptions *)

Inductive exn : Type :=
| IndexError
| ValueError.

Inductive result (A : Type) : Type :=
| Ok (a : A)
| Raise (e : exn).

Arguments Ok {A} a.
Arguments Raise {A} e.

Definition bind {A B : Type} (c : result A) (k : A -> result B) : result B :=
  match c with
  | Ok a => k a
  | Raise e => Raise e
  end.

Notation "'let*' x ':=' c 'in' k" := (bind c (fun x => k))
  (at level 10, x pattern, c at level 100, k at level 200).

(** A Python [for] loop whose body may raise: the state is threaded through
    the iterations, and the first exception ends the loop. *)
Fixpoint for_each {S A : Type} (body : S -> A -> result S) (l : list A) (s : S)
  : result S :=
  match l with
  | [] => Ok s
  | a :: l' => let* s' := body s a in for_each body l' s'
  end.

(** Python's [a or b] on conditions that may raise: [b] is evaluated only
    when [a] is false. *)
Definition or_else (a b : result bool) : result bool :=
  let* x := a in if x then Ok true else b.

(** ** Numbers *)

(** [r <= p] and [r < p] on floats, read on the rationals they denote. *)
Definition Qlt_bool (x y : Q) : bool := negb (Qle_bool y x).

(** Python's [int(q)]: truncation towards zero. *)
Definition py_int (q : Q) : Z :=
  if Qle_bool 0 q then Qfloor q else Qceiling q.

(** ** numpy arrays of rank two *)

Record ndarray (A : Type) : Type := mk_ndarray {
  shape : Z * Z;
  data : list A
}.

Arguments mk_ndarray {A} shape data.
Arguments shape {A} _.
Arguments data {A} _.

(** What every array built by numpy satisfies. *)
Definition ndarray_wf {A : Type} (a : ndarray A) : Prop :=
  0 <= fst (shape a) /\ 0 <= snd (shape a) /\
  Z.of_nat (length (data a)) = fst (shape a) * snd (shape a).

(** [np.ones(size)], [np.zeros(size)]: a negative dimension is a
    [ValueError]. *)
Definition np_full {A : Type} (size : Z * Z) (v : A) : result (ndarray A) :=
  if (fst size <? 0) || (snd size <? 0) then Raise ValueError
  else Ok (mk_ndarray size (replicate (Z.to_nat (fst size * snd size)) v)).

Definition np_ones (size : Z * Z) : result (ndarray Z) := np_full size 1.

(** [a * c], elementwise. *)
Definition ndarray_scale (a : ndarray Z) (c : Z) : ndarray Z :=
  mk_ndarray (shape a) ((fun v => v * c) <$> data a).

(** One index of [a[x, y]] against the length of its axis. *)
Definition norm_index (len i : Z) : result Z :=
  if (0 <=? i) && (i <? len) then Ok i
  else if (- len <=? i) && (i <? 0) then Ok (i + len)
  else Raise IndexError.

Definition offset {A : Type} (a : ndarray A) (x y : Z) : nat :=
  Z.to_nat (x * snd (shape a) + y).

(** [a[x, y]] *)
Definition getitem {A : Type} (a : ndarray A) (xy : Z * Z) : result A :=
  let* x := norm_index (fst (shape a)) (fst xy) in
  let* y := norm_index (snd (shape a)) (snd xy) in
  match data a !! offset a x y with
  | Some v => Ok v
  | None => Raise IndexError
  end.

(** [a[x, y] = v] *)
Definition setitem {A : Type} (a : ndarray A) (xy : Z * Z) (v : A)
  : result (ndarray A) :=
  let* x := norm_index (fst (shape a)) (fst xy) in
  let* y := norm_index (snd (shape a)) (snd xy) in
  Ok (mk_ndarray (shape a) (<[offset a x y := v]> (data a))).

(** The position of the [i]-th element of the buffer. *)
Definition unravel {A : Type} (a : ndarray A) (i : nat) : Z * Z :=
  (Z.of_nat i / snd (shape a), Z.of_nat i mod snd (shape a)).

(** [points = np.where(a == v); list(zip(points[0], points[1]))]: the
    positions holding [v], in row-major order. *)
Definition np_where (a : ndarray Z) (v : Z) : list (Z * Z) :=
  unravel a <$> filter (fun i => data a !! i = Some v) (seq 0 (length (data a))).

(** [a[mask] = v] with a boolean mask: the shapes must agree. *)
Definition mask_assign {A : Type} (a : ndarray A) (mask : ndarray bool) (v : A)
  : result (ndarray A) :=
  if (fst (shape mask) =? fst (shape a)) && (snd (shape mask) =? snd (shape a))
  then Ok (mk_ndarray (shape a)
             (zip_with (fun (b : bool) c => if b then v else c)
                (data mask) (data a)))
  else Raise IndexError.

(** [a == v] and [a < q], elementwise. *)
Definition ndarray_eq (a : ndarray Z) (v : Z) : ndarray bool :=
  mk_ndarray (shape a) ((fun w => w =? v) <$> data a).

Definition ndarray_lt (a : ndarray Q) (q : Q) : ndarray bool :=
  mk_ndarray (shape a) ((fun r => Qlt_bool r q) <$> data a).

(** ** The random generator *)

(** The state of [np.random]: the uniform variates of [[0, 1)] and the raw
    integers that it is going to hand out, in order. *)
Record RandomState : Type := mk_RandomState {
  uniform : nat -> Q;
  integer : nat -> Z
}.

Definition skip_uniform (k : nat) (g : RandomState) : RandomState :=
  mk_RandomState (fun i => uniform g (k + i)%nat) (integer g).

Definition skip_integer (k : nat) (g : RandomState) : RandomState :=
  mk_RandomState (uniform g) (fun i => integer g (k + i)%nat).

(** [np.random.rand(k)] *)
Definition np_rand (k : nat) (g : RandomState) : list Q * RandomState :=
  (uniform g <$> seq 0 k, skip_uniform k g).

(** [np.random.rand(nx, ny)] *)
Definition np_rand2 (size : Z * Z) (g : RandomState)
  : result (ndarray Q * RandomState) :=
  if (fst size <? 0) || (snd size <? 0) then Raise ValueError
  else
    let (r, g') := np_rand (Z.to_nat (fst size * snd size)) g in
    Ok (mk_ndarray size r, g').

(** [np.random.randint(low, high, k)]: [k] integers of [[low, high)].  A
    negative [k] is a [ValueError], and so is an empty range unless no sample
    is taken.  The raw integers are reduced into the range, so that every
    sequence of the range is returned for some generator state.  No limit is
    put on [k]: numpy refuses a count that it cannot allocate, which does not
    arise for a movement probability of at most 1, where [k] is at most the
    number of sites of the grid. *)
Definition np_randint (low high k : Z) (g : RandomState)
  : result (list Z * RandomState) :=
  if k <? 0 then Raise ValueError
  else if k =? 0 then Ok ([], g)
  else if high <=? low then Raise ValueError
  else Ok ((fun i => low + integer g i mod (high - low)) <$> seq 0 (Z.to_nat k),
           skip_integer (Z.to_nat k) g).

(** ** The simulation *)

Definition SUSCEPTIBLE : Z := 1.
Definition LATENT : Z := 2.
Definition INFECTED : Z := 3.
Definition RECOVER : Z := 4.

Record MovingAgentSimulation : Type := mk_sim {
  self_size : Z * Z;
  self_infect : Q;
  self_symptom : Q;
  self_recover : Q;
  self_moving : Q;
  self_map : ndarray Z;
  self_n : Z
}.

Definition set_map (self : MovingAgentSimulation) (m : ndarray Z)
  : MovingAgentSimulation :=
  mk_sim (self_size self) (self_infect self) (self_symptom self)
    (self_recover self) (self_moving self) m (self_n self).

(** [__init__] *)
Definition init (size : Z * Z) (infect symptom recover moving : Q)
  : result MovingAgentSimulation :=
  let* ones := np_ones size in
  Ok (mk_sim size infect symptom recover moving
        (ndarray_scale ones SUSCEPTIBLE) 0).

(** [initialize(ratio, state)]; Python's default for [state] is [LATENT].
    [state] is an integer, stored as it is: this is what the float64 map
    does for the integers of [exact_in_float64], and the statements on the
    value that [initialize] writes are made for those. *)
Definition initialize (self : MovingAgentSimulation) (ratio : Q) (state : Z)
    (g : RandomState) : result (MovingAgentSimulation * RandomState) :=
  let* (rand, g') := np_rand2 (self_size self) g in
  let* m := mask_assign (self_map self) (ndarray_lt rand ratio) state in
  Ok (set_map self m, g').

(** One iteration of the loops of the recover and symptom phases:
    [if r <= rate: self.map[xy] = target]. *)
Definition advance (rate : Q) (target : Z) (m : ndarray Z) (c : (Z * Z) * Q)
  : result (ndarray Z) :=
  if Qle_bool (snd c) rate then setitem m (fst c) target else Ok m.

(** The neighbour test of the infect phase, on the live map, with the
    indices clamped at the border. *)
Definition has_infected_neighbor (size : Z * Z) (m : ndarray Z) (xy : Z * Z)
  : result bool :=
  let '(x, y) := xy in
  or_else (let* v := getitem m (Z.max (x - 1) 0, y) in Ok (SUSCEPTIBLE <? v))
  (or_else (let* v := getitem m (Z.min (x + 1) (fst size - 1), y) in
            Ok (SUSCEPTIBLE <? v))
  (or_else (let* v := getitem m (x, Z.max (y - 1) 0) in Ok (SUSCEPTIBLE <? v))
           (let* v := getitem m (x, Z.min (y + 1) (snd size - 1)) in
            Ok (SUSCEPTIBLE <? v)))).

(** One iteration of the loop of the infect phase. *)
Definition infect_one (size : Z * Z) (rate : Q) (m : ndarray Z)
    (c : (Z * Z) * Q) : result (ndarray Z) :=
  if Qle_bool (snd c) rate then
    let* b := has_infected_neighbor size m (fst c) in
    if b then setitem m (fst c) LATENT else Ok m
  else Ok m.

(** The three phases of [step], each with the array that [np.random.rand]
    returned for it. *)
Definition recover_loop (self : MovingAgentSimulation) (m : ndarray Z)
    (recover_rate : list Q) : result (ndarray Z) :=
  for_each (advance (self_recover self) RECOVER)
    (zip (np_where m INFECTED) recover_rate) m.

Definition symptom_loop (self : MovingAgentSimulation) (m : ndarray Z)
    (symptom_rate : list Q) : result (ndarray Z) :=
  for_each (advance (self_symptom self) INFECTED)
    (zip (np_where m LATENT) symptom_rate) m.

Definition infect_loop (self : MovingAgentSimulation) (m : ndarray Z)
    (infect_rate : list Q) : result (ndarray Z) :=
  for_each (infect_one (self_size self) (self_infect self))
    (zip (np_where m SUSCEPTIBLE) infect_rate) m.

(** Where an exchange attempt goes; [None] is the [continue] of a move that
    would leave the grid. *)
Definition exchange_target (size : Z * Z) (x y d : Z) : option (Z * Z) :=
  if d =? 0 then (if x =? 0 then None else Some (x - 1, y))
  else if d =? 1 then (if x =? fst size - 1 then None else Some (x + 1, y))
  else if d =? 2 then (if y =? 0 then None else Some (x, y - 1))
  else (if y =? snd size - 1 then None else Some (x, y + 1)).

(** The body of the loop of [exchange]. *)
Definition exchange_one (size : Z * Z) (m : ndarray Z) (a : Z * Z * Z)
  : result (ndarray Z) :=
  let '(x, y, d) := a in
  match exchange_target size x y d with
  | None => Ok m
  | Some xy2 =>
      let* temp := getitem m (x, y) in
      let* v := getitem m xy2 in
      let* m1 := setitem m (x, y) v in
      setitem m1 xy2 temp
  end.

Definition zip3 {A B C : Type} (la : list A) (lb : list B) (lc : list C)
  : list (A * B * C) :=
  zip (zip la lb) lc.

(** The first lines of [exchange]: the number of attempts and the three
    arrays of draws, zipped.  The product is taken on the rationals, where
    the program multiplies floats: the two counts can differ (a probability
    of 0.7 on 10 sites gives 7 attempts in floats and 6 here), and no
    statement below depends on the count. *)
Definition exchange_attempts (self : MovingAgentSimulation) (g : RandomState)
  : result (list (Z * Z * Z) * RandomState) :=
  let size := self_size self in
  let n := py_int (self_moving self * inject_Z (fst size) * inject_Z (snd size)) in
  let* (xs, g1) := np_randint 0 (fst size) n g in
  let* (ys, g2) := np_randint 0 (snd size) n g1 in
  let* (direction, g3) := np_randint 0 4 n g2 in
  Ok (zip3 xs ys direction, g3).

(** [exchange] *)
Definition exchange (self : MovingAgentSimulation) (g : RandomState)
  : result (MovingAgentSimulation * RandomState) :=
  let* (attempts, g') := exchange_attempts self g in
  let* m := for_each (exchange_one (self_size self)) attempts (self_map self) in
  Ok (set_map self m, g').

(** The three phases of [step] that precede the exchange. *)
Definition transitions (self : MovingAgentSimulation) (g : RandomState)
  : result (MovingAgentSimulation * RandomState) :=
  let m0 := self_map self in
  let (recover_rate, g1) := np_rand (length (np_where m0 INFECTED)) g in
  let* m1 := recover_loop self m0 recover_rate in
  let (symptom_rate, g2) := np_rand (length (np_where m1 LATENT)) g1 in
  let* m2 := symptom_loop self m1 symptom_rate in
  let (infect_rate, g3) := np_rand (length (np_where m2 SUSCEPTIBLE)) g2 in
  let* m3 := infect_loop self m2 infect_rate in
  Ok (set_map self m3, g3).

(** [step]: the simulation after the call stands for the returned pair
    [(self.n, self.map)]. *)
Definition step (self : MovingAgentSimulation) (g : RandomState)
  : result (MovingAgentSimulation * RandomState) :=
  let* (s1, g1) := transitions self g in
  let* (s2, g2) :=
    (if Qlt_bool 0 (self_moving s1) then exchange s1 g1 else Ok (s1, g1)) in
  Ok (mk_sim (self_size s2) (self_infect s2) (self_symptom s2)
        (self_recover s2) (self_moving s2) (self_map s2) (self_n s2 + 1), g2).

(** [get_state] *)
Definition get_state (self : MovingAgentSimulation) : Z * ndarray Z :=
  (self_n self, self_map self).

(** [convert_to_rgb] *)
Definition convert_to_rgb (d : ndarray Z) : result (ndarray (Z * Z * Z)) :=
  let* rgb := np_full (shape d) (0, 0, 0) in
  let* rgb := mask_assign rgb (ndarray_eq d SUSCEPTIBLE) (55, 55, 200) in
  let* rgb := mask_assign rgb (ndarray_eq d LATENT) (255, 255, 55) in
  let* rgb := mask_assign rgb (ndarray_eq d INFECTED) (200, 55, 55) in
  let* rgb := mask_assign rgb (ndarray_eq d RECOVER) (55, 200, 55) in
  Ok rgb.

(** ** Predicates used in the statements *)

(** A position that indexes the array without wrapping. *)
Definition in_bounds {A : Type} (a : ndarray A) (xy : Z * Z) : Prop :=
  (0 <= fst xy < fst (shape a)) /\ (0 <= snd xy < snd (shape a)).

(** The object invariant: [self.map] is an array of shape [self.size]. *)
Definition sim_wf (self : MovingAgentSimulation) : Prop :=
  ndarray_wf (self_map self) /\ shape (self_map self) = self_size self.

(** [m'] is [m] where some sites holding [v0] now hold [target]. *)
Definition advanced (v0 target : Z) (m m' : ndarray Z) : Prop :=
  shape m' = shape m /\
  forall i : nat,
    data m' !! i = data m !! i \/
    (data m !! i = Some v0 /\ data m' !! i = Some target).

(** No site holds a smaller value in [m'] than in [m]. *)
Definition never_regresses (m m' : ndarray Z) : Prop :=
  forall xy v, getitem m xy = Ok v ->
    exists v', getitem m' xy = Ok v' /\ v <= v'.

(** The colour table of the display: one colour for each of the four
    states, and black for anything else. *)
Definition display_colour (v : Z) : Z * Z * Z :=
  if v =? SUSCEPTIBLE then (55, 55, 200)
  else if v =? LATENT then (255, 255, 55)
  else if v =? INFECTED then (200, 55, 55)
  else if v =? RECOVER then (55, 200, 55)
  else (0, 0, 0).

(** How many sites hold the state [v]. *)
Definition count_state (v : Z) (m : ndarray Z) : nat :=
  length (filter (fun w => w = v) (data m)).

(** The four positions that the neighbour test of the infect phase reads
    at [xy]. *)
Definition neighbors (size : Z * Z) (xy : Z * Z) : list (Z * Z) :=
  [(Z.max (fst xy - 1) 0, snd xy);
   (Z.min (fst xy + 1) (fst size - 1), snd xy);
   (fst xy, Z.max (snd xy - 1) 0);
   (fst xy, Z.min (snd xy + 1) (snd size - 1))].

(** The iteration of the infect phase as a reading on a snapshot has it:
    the neighbour test is made on [m0], the map at the start of the phase,
    and the write goes to the live map [m]. *)
Definition infect_one_snapshot (size : Z * Z) (rate : Q) (m0 m : ndarray Z)
    (c : (Z * Z) * Q) : result (ndarray Z) :=
  if Qle_bool (snd c) rate then
    let* b := has_infected_neighbor size m0 (fst c) in
    if b then setitem m (fst c) LATENT else Ok m
  else Ok m.

(** No two different visited sites whose draws pass are neighbours. *)
Definition separated (size : Z * Z) (rate : Q) (l : list ((Z * Z) * Q)) : Prop :=
  forall c c', c ∈ l -> c' ∈ l ->
    Qle_bool (snd c) rate = true -> Qle_bool (snd c') rate = true ->
    fst c' ∈ neighbors size (fst c) -> fst c' = fst c.

(** The integers that the float64 map holds exactly: a value written to
    the map is read back unchanged exactly when it is one of them (numpy
    rounds an integer beyond 2^53 to the nearest float, and raises
    [OverflowError] past the largest float). *)
Definition exact_in_float64 (v : Z) : Prop := - 2 ^ 53 <= v <= 2 ^ 53.

(** One of the four states. *)
Definition valid_state (v : Z) : Prop :=
  v = SUSCEPTIBLE \/ v = LATENT \/ v = INFECTED \/ v = RECOVER.

(** Every site holds one of the four states. *)
Definition valid_grid (m : ndarray Z) : Prop := Forall valid_state (data m).

(** The attributes that no method assigns after [__init__]. *)
Definition same_parameters (s s' : MovingAgentSimulation) : Prop :=
  self_size s' = self_size s /\ self_infect s' = self_infect s /\
  self_symptom s' = self_symptom s /\ self_recover s' = self_recover s /\
  self_moving s' = self_moving s.

(** [k] calls of [step] in a row, each on the generator state that the
    call before it left. *)
Fixpoint steps (k : nat) (self : MovingAgentSimulation) (g : RandomState)
  : result (MovingAgentSimulation * RandomState) :=
  match k with
  | O => Ok (self, g)
  | S k' => let* (s1, g1) := step self g in steps k' s1 g1
  end.

(** ** Test data *)

Definition const_state (q : Q) (k : Z) : RandomState :=
  mk_RandomState (fun _ => q) (fun _ => k).

Definition grid (nx ny : Z) (cells : list Z) : ndarray Z :=
  mk_ndarray (nx, ny) cells.

Definition scenario_3x3 : MovingAgentSimulation :=
  mk_sim (3, 3) 1 0 0 0
    (grid 3 3 [1; 1; 1;
               1; 3; 1;
               1; 1; 1]) 0.

(** A 1x2 grid [Recovered, Susceptible] with half of the sites exchanged per
    step, and a generator whose first integers make the one attempt start
    at site (0, 1) and go to the left. *)
Definition regress_sim : MovingAgentSimulation :=
  mk_sim (1, 2) 0 0 0 (1 # 2) (grid 1 2 [4; 1]) 0.

Definition regress_state : RandomState :=
  mk_RandomState (fun _ => 1 # 2)
    (fun i => match i with O => 0 | S O => 1 | _ => 2 end).

(** A 1x2 grid [Susceptible, Recovered] where every probability is 0. *)
Definition zero_rate_sim : MovingAgentSimulation :=
  mk_sim (1, 2) 0 0 0 0 (grid 1 2 [1; 4]) 0.

(** A fresh 1x1 simulation. *)
Definition seed_sim : MovingAgentSimulation :=
  mk_sim (1, 1) 0 0 0 0 (grid 1 1 [1]) 0.

(** A 1x1 grid holding an Infected site, with a movement probability of 1,
    that is one exchange attempt per step. *)
Definition single_site_sim : MovingAgentSimulation :=
  mk_sim (1, 1) 0 0 0 1 (grid 1 1 [3]) 0.

(** A row [Susceptible, Susceptible, Infected], and its two Susceptible
    sites with a draw of 1/2 each, in row-major order and in the opposite
    order. *)
Definition row_map : ndarray Z := grid 1 3 [1; 1; 3].

Definition row_major_visits : list ((Z * Z) * Q) :=
  [((0, 0), 1 # 2); ((0, 1), 1 # 2)].

Definition reversed_visits : list ((Z * Z) * Q) :=
  [((0, 1), 1 # 2); ((0, 0), 1 # 2)].

(** A row [Susceptible, Infected, Susceptible]: the two Susceptible sites
    are not neighbours. *)
Definition apart_map : ndarray Z := grid 1 3 [1; 3; 1].

Definition apart_visits : list ((Z * Z) * Q) :=
  [((0, 0), 1 # 2); ((0, 2), 1 # 2)].

Definition apart_visits_reversed : list ((Z * Z) * Q) :=
  [((0, 2), 1 # 2); ((0, 0), 1 # 2)].

(** A 2x2 grid holding the four states, with every probability 1/2. *)
Definition mixed_sim : MovingAgentSimulation :=
  mk_sim (2, 2) (1 # 2) (1 # 2) (1 # 2) (1 # 2) (grid 2 2 [1; 2; 3; 4]) 0.

(** A 2x2 grid holding the four states, with rates of 1 and no movement. *)
Definition eager_sim : MovingAgentSimulation :=
  mk_sim (2, 2) 1 1 1 0 (grid 2 2 [1; 2; 3; 4]) 0.

(** A 2x2 grid holding the four states, with rates of 0 and no movement. *)
Definition idle_sim : MovingAgentSimulation :=
  mk_sim (2, 2) 0 0 0 0 (grid 2 2 [1; 2; 3; 4]) 0.

(** A 2x2 grid of Susceptible sites, with rates of 1 and every site
    exchanged per step. *)
Definition healthy_sim : MovingAgentSimulation :=
  mk_sim (2, 2) 1 1 1 1 (grid 2 2 [1; 1; 1; 1]) 0.

(** A 2x2 grid with two Infected sites and a recovery probability of 1. *)
Definition recovering_sim : MovingAgentSimulation :=
  mk_sim (2, 2) (1 # 2) (1 # 2) 1 0 (grid 2 2 [3; 1; 2; 3]) 0.

(** ** Tactics *)

(** Evaluation of the closed array expressions of a goal, one at a time. *)
Ltac eval_closed t := let v := eval vm_compute in t in change t with v.

Ltac eval_arrays :=
  repeat match goal with
    | |- context [np_where ?m ?v] => eval_closed (np_where m v)
    | |- context [length ?l] => eval_closed (length l)
    | |- context [seq ?a ?b] => eval_closed (seq a b)
    | |- context [has_infected_neighbor ?s ?m ?c] =>
        eval_closed (has_infected_neighbor s m c)
    | |- context [setitem ?m ?c ?v] => eval_closed (setitem m c v)
    end.

(** ** Indexing *)

Section indexing.
Context {A : Type}.
Implicit Types (a : ndarray A) (xy : Z * Z) (i : nat).

Lemma norm_index_in len k : 0 <= k < len -> norm_index len k = Ok k.
Proof.
  intros H. unfold norm_index.
  replace (0 <=? k) with true by (symmetry; apply Z.leb_le; lia).
  replace (k <? len) with true by (symmetry; apply Z.ltb_lt; lia).
  reflexivity.
Qed.

Lemma offset_lt a xy :
  ndarray_wf a -> in_bounds a xy ->
  (offset a (fst xy) (snd xy) < length (data a))%nat.
Proof.
  intros (Hx & Hy & Hlen) [Hbx Hby]. unfold offset.
  apply Nat2Z.inj_lt. rewrite Hlen, Z2Nat.id by nia. nia.
Qed.

Lemma getitem_in a xy :
  in_bounds a xy ->
  getitem a xy = match data a !! offset a (fst xy) (snd xy) with
                 | Some v => Ok v
                 | None => Raise IndexError
                 end.
Proof.
  intros [Hx Hy]. unfold getitem.
  rewrite !norm_index_in by assumption. reflexivity.
Qed.

Lemma getitem_ok a xy :
  ndarray_wf a -> in_bounds a xy ->
  exists v, data a !! offset a (fst xy) (snd xy) = Some v /\ getitem a xy = Ok v.
Proof.
  intros Hwf Hin. rewrite getitem_in by assumption.
  destruct (lookup_lt_is_Some_2 _ _ (offset_lt a xy Hwf Hin)) as [v Hv].
  exists v. rewrite Hv. auto.
Qed.

Lemma setitem_in a xy v :
  in_bounds a xy ->
  setitem a xy v =
  Ok (mk_ndarray (shape a) (<[offset a (fst xy) (snd xy) := v]> (data a))).
Proof.
  intros [Hx Hy]. unfold setitem.
  rewrite !norm_index_in by assumption. reflexivity.
Qed.

Lemma offset_unravel a i :
  offset a (fst (unravel a i)) (snd (unravel a i)) = i.
Proof.
  unfold offset, unravel; simpl.
  destruct (Z.eq_dec (snd (shape a)) 0) as [E | E].
  - rewrite E, Z.div_0_r, Z.mod_0_r. simpl. lia.
  - rewrite (Z.mul_comm _ (snd (shape a))), <- Z.div_mod by assumption. lia.
Qed.

Lemma unravel_in_bounds a i :
  ndarray_wf a -> (i < length (data a))%nat -> in_bounds a (unravel a i).
Proof.
  intros (Hx & Hy & Hlen) Hi. unfold in_bounds, unravel; simpl.
  assert (0 < snd (shape a)) by nia.
  split.
  - split; [apply Z.div_pos; lia |].
    apply Z.div_lt_upper_bound; [assumption | nia].
  - apply Z.mod_pos_bound. assumption.
Qed.

Lemma unravel_offset a xy :
  in_bounds a xy -> unravel a (offset a (fst xy) (snd xy)) = xy.
Proof.
  intros [Hx Hy]. destruct xy as [x y]; simpl in *.
  unfold unravel, offset. rewrite Z2Nat.id by nia. f_equal.
  - rewrite Z.div_add_l by lia. rewrite Z.div_small by lia. lia.
  - rewrite Z.add_comm, Z.mod_add by lia. apply Z.mod_small. lia.
Qed.

(** The value read at a position only depends on the shape and on the
    buffer. *)
Lemma getitem_lookup a xy v :
  getitem a xy = Ok v ->
  exists i, data a !! i = Some v /\
    forall (B : Type) (a' : ndarray B), shape a' = shape a ->
      getitem a' xy = match data a' !! i with
                      | Some w => Ok w
                      | None => Raise IndexError
                      end.
Proof.
  unfold getitem. intros H.
  destruct (norm_index (fst (shape a)) (fst xy)) as [x |] eqn:Ex; [| discriminate].
  destruct (norm_index (snd (shape a)) (snd xy)) as [y |] eqn:Ey; [| discriminate].
  simpl in H.
  destruct (data a !! offset a x y) as [w |] eqn:Ew; [| discriminate].
  exists (offset a x y). split; [congruence |].
  intros B a' Hs. rewrite Hs, Ex, Ey. simpl. unfold offset. rewrite Hs. reflexivity.
Qed.
End indexing.

(** ** Sites that move one state forward *)

Lemma advanced_refl v0 t m : advanced v0 t m m.
Proof. split; [reflexivity | intros i; left; reflexivity]. Qed.

Lemma advanced_length v0 t m m' :
  advanced v0 t m m' -> length (data m') = length (data m).
Proof.
  intros [_ H].
  destruct (Nat.lt_trichotomy (length (data m')) (length (data m)))
    as [Hlt | [Heq | Hgt]]; [exfalso | assumption | exfalso].
  - destruct (lookup_lt_is_Some_2 _ _ Hlt) as [w Hw].
    pose proof (lookup_ge_None_2 (data m') (length (data m')) (Nat.le_refl _)) as Hn.
    destruct (H (length (data m'))) as [E | [_ E]]; congruence.
  - destruct (lookup_lt_is_Some_2 _ _ Hgt) as [w Hw].
    pose proof (lookup_ge_None_2 (data m) (length (data m)) (Nat.le_refl _)) as Hn.
    destruct (H (length (data m))) as [E | [E _]]; congruence.
Qed.

Lemma advanced_wf v0 t m m' :
  ndarray_wf m -> advanced v0 t m m' -> ndarray_wf m'.
Proof.
  intros (Hx & Hy & Hlen) Hadv. pose proof (advanced_length _ _ _ _ Hadv) as Hl.
  destruct Hadv as [Hs _]. unfold ndarray_wf. rewrite Hs, Hl. auto.
Qed.

Lemma advanced_in_bounds v0 t m m' xy :
  advanced v0 t m m' -> in_bounds m xy -> in_bounds m' xy.
Proof. intros [Hs _]. unfold in_bounds. rewrite Hs. auto. Qed.

(** Writing [t] at a site that held [v0] at the start keeps the relation. *)
Lemma advanced_setitem v0 t m0 m xy :
  advanced v0 t m0 m -> in_bounds m0 xy ->
  data m0 !! offset m0 (fst xy) (snd xy) = Some v0 ->
  exists m', setitem m xy t = Ok m' /\ advanced v0 t m0 m'.
Proof.
  intros Hadv Hin H0.
  rewrite setitem_in by (eapply advanced_in_bounds; eassumption).
  eexists; split; [reflexivity |].
  pose proof (advanced_length _ _ _ _ Hadv) as Hl.
  destruct Hadv as [Hs Hadv]. split; [exact Hs |]. simpl.
  assert (Ho : offset m (fst xy) (snd xy) = offset m0 (fst xy) (snd xy))
    by (unfold offset; rewrite Hs; reflexivity).
  rewrite Ho. intros i.
  destruct (decide (offset m0 (fst xy) (snd xy) = i)) as [<- | Hne].
  - right. split; [assumption |]. apply list_lookup_insert_eq.
    rewrite Hl. eapply lookup_lt_Some; eassumption.
  - rewrite list_lookup_insert_ne by assumption. apply Hadv.
Qed.

Lemma advanced_never_regresses v0 t m m' :
  v0 <= t -> advanced v0 t m m' -> never_regresses m m'.
Proof.
  intros Hle [Hs Hadv] xy v Hget.
  destruct (getitem_lookup _ _ _ Hget) as (i & Hi & Hread).
  rewrite (Hread _ m' Hs).
  destruct (Hadv i) as [E | [E1 E2]].
  - rewrite E, Hi. exists v. split; [reflexivity | lia].
  - rewrite E2. exists t. split; [reflexivity |]. congruence.
Qed.

Lemma never_regresses_trans m1 m2 m3 :
  never_regresses m1 m2 -> never_regresses m2 m3 -> never_regresses m1 m3.
Proof.
  intros H12 H23 xy v Hv.
  destruct (H12 xy v Hv) as (v2 & Hv2 & Hle2).
  destruct (H23 xy v2 Hv2) as (v3 & Hv3 & Hle3).
  exists v3. split; [assumption | lia].
Qed.

(** A site that does not hold [v0] is left alone. *)
Lemma advanced_other v0 t m m' xy v :
  advanced v0 t m m' -> v <> v0 -> getitem m xy = Ok v -> getitem m' xy = Ok v.
Proof.
  intros [Hs Hadv] Hne Hget.
  destruct (getitem_lookup _ _ _ Hget) as (i & Hi & Hread).
  rewrite (Hread _ m' Hs).
  destruct (Hadv i) as [E | [E1 E2]]; [rewrite E, Hi; reflexivity | congruence].
Qed.

(** ** [np.where] *)

Lemma np_where_elem a v xy :
  xy ∈ np_where a v ->
  exists i : nat, xy = unravel a i /\ data a !! i = Some v.
Proof.
  unfold np_where. intros H.
  apply list_elem_of_fmap in H as (i & -> & Hi).
  apply list_elem_of_filter in Hi as [Hv _]. eauto.
Qed.

Lemma np_where_complete a v (i : nat) :
  data a !! i = Some v -> unravel a i ∈ np_where a v.
Proof.
  intros H. unfold np_where. apply list_elem_of_fmap_2.
  apply list_elem_of_filter. split; [assumption |].
  apply elem_of_seq. pose proof (lookup_lt_Some _ _ _ H). lia.
Qed.

Lemma np_where_in_bounds a v xy :
  ndarray_wf a -> xy ∈ np_where a v ->
  in_bounds a xy /\ data a !! offset a (fst xy) (snd xy) = Some v.
Proof.
  intros Hwf H. apply np_where_elem in H as (i & -> & Hi).
  split.
  - apply unravel_in_bounds; [assumption |]. eapply lookup_lt_Some; eassumption.
  - rewrite offset_unravel. assumption.
Qed.

(** ** The loops of the three phases *)

(** A loop over sites found by [np.where m0 v0] whose body either does
    nothing or writes [t] at the site only moves sites from [v0] to [t]. *)
Lemma for_each_advanced {B : Type} v0 t
    (body : ndarray Z -> (Z * Z) * B -> result (ndarray Z)) m0 :
  ndarray_wf m0 ->
  (forall m c, ndarray_wf m -> shape m = shape m0 -> in_bounds m0 (fst c) ->
     body m c = Ok m \/ body m c = setitem m (fst c) t) ->
  forall l m,
    Forall (fun c => fst c ∈ np_where m0 v0) l ->
    advanced v0 t m0 m ->
    exists m', for_each body l m = Ok m' /\ advanced v0 t m0 m'.
Proof.
  intros Hwf Hbody l. induction l as [| c l IH]; intros m Hl Hadv.
  - exists m. split; [reflexivity | assumption].
  - inversion Hl as [| ? ? Hc Hl']; subst.
    destruct (np_where_in_bounds _ _ _ Hwf Hc) as [Hin H0].
    simpl.
    destruct (Hbody m c (advanced_wf _ _ _ _ Hwf Hadv) (proj1 Hadv) Hin) as [E | E];
      rewrite E.
    + simpl. apply IH; assumption.
    + destruct (advanced_setitem _ _ _ _ _ Hadv Hin H0) as (m1 & E1 & Hadv1).
      rewrite E1. simpl. apply IH; assumption.
Qed.

Lemma Forall_zip_fst {B C : Type} (P : B -> Prop) (l : list B) (k : list C) :
  Forall P l -> Forall (fun c => P (fst c)) (zip l k).
Proof.
  intros H. revert k. induction H as [| x l Hx Hl IH]; intros [| y k];
    simpl; constructor; auto.
Qed.

Lemma Forall_np_where a v : Forall (fun xy => xy ∈ np_where a v) (np_where a v).
Proof. apply Forall_forall. auto. Qed.

Lemma advance_cases rate t m c :
  advance rate t m c = Ok m \/ advance rate t m c = setitem m (fst c) t.
Proof. unfold advance. destruct (Qle_bool (snd c) rate); auto. Qed.

Lemma has_infected_neighbor_ok size m xy :
  ndarray_wf m -> shape m = size -> in_bounds m xy ->
  exists b, has_infected_neighbor size m xy = Ok b.
Proof.
  intros Hwf <- [Hx Hy]. destruct xy as [x y]. simpl in Hx, Hy.
  unfold has_infected_neighbor, or_else.
  assert (H1 : in_bounds m (Z.max (x - 1) 0, y)) by (split; simpl; lia).
  assert (H2 : in_bounds m (Z.min (x + 1) (fst (shape m) - 1), y))
    by (split; simpl; lia).
  assert (H3 : in_bounds m (x, Z.max (y - 1) 0)) by (split; simpl; lia).
  assert (H4 : in_bounds m (x, Z.min (y + 1) (snd (shape m) - 1)))
    by (split; simpl; lia).
  destruct (getitem_ok _ _ Hwf H1) as (v1 & _ & ->).
  destruct (getitem_ok _ _ Hwf H2) as (v2 & _ & ->).
  destruct (getitem_ok _ _ Hwf H3) as (v3 & _ & ->).
  destruct (getitem_ok _ _ Hwf H4) as (v4 & _ & ->).
  simpl.
  destruct (SUSCEPTIBLE <? v1); simpl; [eauto |].
  destruct (SUSCEPTIBLE <? v2); simpl; [eauto |].
  destruct (SUSCEPTIBLE <? v3); simpl; eauto.
Qed.

Lemma infect_one_cases size rate m c :
  ndarray_wf m -> shape m = size -> in_bounds m (fst c) ->
  infect_one size rate m c = Ok m \/
  infect_one size rate m c = setitem m (fst c) LATENT.
Proof.
  intros Hwf Hs Hin. unfold infect_one.
  destruct (Qle_bool (snd c) rate); [| auto].
  destruct (has_infected_neighbor_ok size m (fst c) Hwf Hs Hin) as [b ->].
  simpl. destruct b; auto.
Qed.

Lemma recover_loop_advanced self m rate :
  ndarray_wf m ->
  exists m', recover_loop self m rate = Ok m' /\ advanced INFECTED RECOVER m m'.
Proof.
  intros Hwf. unfold recover_loop.
  apply for_each_advanced; [assumption | | | apply advanced_refl].
  - intros; apply advance_cases.
  - apply (Forall_zip_fst (fun xy => xy ∈ np_where m INFECTED)), Forall_np_where.
Qed.

Lemma symptom_loop_advanced self m rate :
  ndarray_wf m ->
  exists m', symptom_loop self m rate = Ok m' /\ advanced LATENT INFECTED m m'.
Proof.
  intros Hwf. unfold symptom_loop.
  apply for_each_advanced; [assumption | | | apply advanced_refl].
  - intros; apply advance_cases.
  - apply (Forall_zip_fst (fun xy => xy ∈ np_where m LATENT)), Forall_np_where.
Qed.

Lemma infect_loop_advanced self m rate :
  ndarray_wf m -> shape m = self_size self ->
  exists m', infect_loop self m rate = Ok m' /\ advanced SUSCEPTIBLE LATENT m m'.
Proof.
  intros Hwf Hs. unfold infect_loop.
  apply for_each_advanced; [assumption | | | apply advanced_refl].
  - intros m1 c Hwf1 Hs1 Hin. apply infect_one_cases; [assumption | congruence |].
    unfold in_bounds in *. rewrite Hs1. assumption.
  - apply (Forall_zip_fst (fun xy => xy ∈ np_where m SUSCEPTIBLE)), Forall_np_where.
Qed.

(** ** The transition phases together *)

Lemma transitions_advanced self g :
  sim_wf self ->
  exists m1 m2 m3 g',
    transitions self g = Ok (set_map self m3, g') /\
    recover_loop self (self_map self)
      (fst (np_rand (length (np_where (self_map self) INFECTED)) g)) = Ok m1 /\
    advanced INFECTED RECOVER (self_map self) m1 /\
    advanced LATENT INFECTED m1 m2 /\
    advanced SUSCEPTIBLE LATENT m2 m3.
Proof.
  intros [Hwf Hs]. unfold transitions, np_rand. cbv beta iota zeta.
  match goal with
  | |- context [recover_loop self ?m ?r] =>
      destruct (recover_loop_advanced self m r Hwf) as (m1 & E1 & A1)
  end.
  rewrite E1. cbn [bind fst].
  pose proof (advanced_wf _ _ _ _ Hwf A1) as Hwf1.
  match goal with
  | |- context [symptom_loop self m1 ?r] =>
      destruct (symptom_loop_advanced self m1 r Hwf1) as (m2 & E2 & A2)
  end.
  rewrite E2. cbn [bind].
  pose proof (advanced_wf _ _ _ _ Hwf1 A2) as Hwf2.
  assert (Hs2 : shape m2 = self_size self)
    by (rewrite (proj1 A2), (proj1 A1); assumption).
  match goal with
  | |- context [infect_loop self m2 ?r] =>
      destruct (infect_loop_advanced self m2 r Hwf2 Hs2) as (m3 & E3 & A3)
  end.
  rewrite E3. cbn [bind].
  exists m1, m2, m3. eexists.
  split; [reflexivity |]. split; [exact E1 |]. auto.
Qed.

Lemma Qlt_bool_false x y : (y <= x)%Q -> Qlt_bool x y = false.
Proof.
  intros H. unfold Qlt_bool. apply Qle_bool_iff in H. rewrite H. reflexivity.
Qed.

(** Without movement, [step] is the three phases and the counter. *)
Lemma step_no_moving self g m3 g' :
  (self_moving self <= 0)%Q ->
  transitions self g = Ok (set_map self m3, g') ->
  step self g =
  Ok (mk_sim (self_size self) (self_infect self) (self_symptom self)
        (self_recover self) (self_moving self) m3 (self_n self + 1), g').
Proof.
  intros Hm Ht. unfold step. rewrite Ht. simpl.
  rewrite Qlt_bool_false by assumption. reflexivity.
Qed.

Lemma transitions_never_regress self g :
  sim_wf self ->
  exists m3 g',
    transitions self g = Ok (set_map self m3, g') /\
    never_regresses (self_map self) m3.
Proof.
  intros Hwf.
  destruct (transitions_advanced self g Hwf) as (m1 & m2 & m3 & g' & Ht & _ & A1 & A2 & A3).
  exists m3, g'. split; [assumption |].
  eapply never_regresses_trans; [| eapply never_regresses_trans].
  - eapply advanced_never_regresses; [| exact A1]. unfold INFECTED, RECOVER; lia.
  - eapply advanced_never_regresses; [| exact A2]. unfold INFECTED, LATENT; lia.
  - eapply advanced_never_regresses; [| exact A3]. unfold SUSCEPTIBLE, LATENT; lia.
Qed.

(** ** A rate of one *)

Lemma elem_of_zip_same_length {B C : Type} (l : list B) (k : list C) x :
  x ∈ l -> length l = length k -> exists y, (x, y) ∈ zip l k.
Proof.
  intros Hx Hlen. apply list_elem_of_lookup in Hx as [i Hi].
  assert (Hk : is_Some (k !! i)).
  { apply lookup_lt_is_Some. rewrite <- Hlen. eapply lookup_lt_Some; eassumption. }
  destruct Hk as [y Hy]. exists y.
  apply list_elem_of_lookup. exists i.
  apply lookup_zip_with_Some. exists x, y. auto.
Qed.

(** When every draw passes, every visited site is written. *)
Lemma for_each_advance_all rate t l :
  forall m,
    Forall (fun c : Z * Z * Q => Qle_bool (snd c) rate = true /\ in_bounds m (fst c)) l ->
    exists m',
      for_each (advance rate t) l m = Ok m' /\
      shape m' = shape m /\
      length (data m') = length (data m) /\
      (forall i : nat, data m !! i = Some t -> data m' !! i = Some t) /\
      (forall c, c ∈ l ->
         (offset m (fst (fst c)) (snd (fst c)) < length (data m))%nat ->
         data m' !! offset m (fst (fst c)) (snd (fst c)) = Some t).
Proof.
  induction l as [| c l IH]; intros m Hl.
  - exists m. repeat split; auto. intros c Hc. inversion Hc.
  - inversion Hl as [| ? ? [Hpass Hin] Hl']; subst.
    simpl. unfold advance at 1. rewrite Hpass.
    rewrite setitem_in by assumption. simpl.
    set (m1 := mk_ndarray (shape m) (<[offset m (fst (fst c)) (snd (fst c)) := t]> (data m))).
    destruct (IH m1) as (m' & E & Hs & Hlen & Hkeep & Hall).
    { eapply Forall_impl; [exact Hl' |]. intros c' [? ?]. split; assumption. }
    exists m'. split; [assumption |].
    split; [rewrite Hs; reflexivity |].
    split; [rewrite Hlen; apply length_insert |].
    split.
    + intros i Hi. apply Hkeep. simpl.
      destruct (decide (offset m (fst (fst c)) (snd (fst c)) = i)) as [<- | Hne].
      * apply list_lookup_insert_eq. eapply lookup_lt_Some; eassumption.
      * rewrite list_lookup_insert_ne; assumption.
    + intros c' Hc' Hlt. apply elem_of_cons in Hc' as [-> | Hc'].
      * apply Hkeep. simpl. apply list_lookup_insert_eq. assumption.
      * specialize (Hall c' Hc'). unfold m1 in Hall. simpl in Hall.
        rewrite length_insert in Hall. apply Hall. assumption.
Qed.

Lemma sim_wf_scenario_3x3 : sim_wf scenario_3x3.
Proof.
  split; [| reflexivity]. unfold ndarray_wf; simpl. lia.
Qed.

(** C5, as amended: when the movement probability is 0 (so that [step] does
    not call [exchange]), [step] returns and no site holds a smaller state
    after it than before it, whatever the parameters, the grid and the
    draws. *)
Theorem step_never_regresses self g :
  sim_wf self -> (self_moving self <= 0)%Q ->
  exists s' g',
    step self g = Ok (s', g') /\
    never_regresses (self_map self) (self_map s').
Proof.
  intros Hwf Hm.
  destruct (transitions_never_regress self g Hwf) as (m3 & g' & Ht & Hmono).
  rewrite (step_no_moving self g m3 g' Hm Ht).
  eexists. eexists. split; [reflexivity | exact Hmono].
Qed.

Lemma step_never_regresses_witness :
  exists s' g',
    step scenario_3x3 (const_state (1 # 2) 0) = Ok (s', g') /\
    never_regresses (self_map scenario_3x3) (self_map s').
Proof.
  apply (step_never_regresses scenario_3x3 (const_state (1 # 2) 0)).
  - exact sim_wf_scenario_3x3.
  - simpl. apply Qle_refl.
Defined.

(** C5, as stated, fails once [exchange] runs: on the 1x2 grid
    [Recovered, Susceptible] one swap of the two sites puts Susceptible where
    Recovered was. *)
Lemma step_regresses_by_exchange :
  exists s' g',
    step regress_sim regress_state = Ok (s', g') /\
    getitem (self_map regress_sim) (0, 0) = Ok RECOVER /\
    getitem (self_map s') (0, 0) = Ok SUSCEPTIBLE /\
    ~ never_regresses (self_map regress_sim) (self_map s').
Proof.
  eexists. eexists. split; [vm_compute; reflexivity |].
  split; [reflexivity |]. split; [reflexivity |].
  intros H. destruct (H (0, 0) RECOVER eq_refl) as (v' & Hv' & Hle).
  vm_compute in Hv'. injection Hv' as <-. vm_compute in Hle. apply Hle. reflexivity.
Qed.

(** C7: with a recovery probability of 1 and no movement, every site that
    is Infected when [step] is called is Recovered when it returns, for every
    grid and all draws of [[0, 1)]. *)
Theorem step_recover_rate_one self g :
  sim_wf self ->
  (self_recover self == 1)%Q ->
  (self_moving self == 0)%Q ->
  (forall i, (0 <= uniform g i)%Q /\ (uniform g i < 1)%Q) ->
  exists s' g',
    step self g = Ok (s', g') /\
    forall xy, getitem (self_map self) xy = Ok INFECTED ->
               getitem (self_map s') xy = Ok RECOVER.
Proof.
  intros Hwf Hrec Hmov Hdraw.
  destruct (transitions_advanced self g Hwf)
    as (m1 & m2 & m3 & g' & Ht & E1 & A1 & A2 & A3).
  assert (Hm : (self_moving self <= 0)%Q) by (rewrite Hmov; apply Qle_refl).
  rewrite (step_no_moving self g m3 g' Hm Ht).
  eexists. eexists. split; [reflexivity |]. simpl.
  intros xy Hget.
  apply (advanced_other _ _ m2 m3 xy RECOVER A3); [discriminate |].
  apply (advanced_other _ _ m1 m2 xy RECOVER A2); [discriminate |].
  destruct (getitem_lookup _ _ _ Hget) as (i & Hi & Hread).
  rewrite (Hread _ m1 (proj1 A1)).
  unfold recover_loop, np_rand in E1. cbn [fst] in E1.
  destruct Hwf as [Hwf Hs].
  destruct (for_each_advance_all (self_recover self) RECOVER
              (zip (np_where (self_map self) INFECTED)
                 (uniform g <$> seq 0 (length (np_where (self_map self) INFECTED))))
              (self_map self))
    as (m1' & E1' & _ & _ & _ & Hall).
  { apply Forall_forall. intros [c r] Hc. simpl. split.
    - apply elem_of_zip_r in Hc. apply list_elem_of_fmap in Hc as (j & -> & _).
      apply Qle_bool_iff. rewrite Hrec. apply Qlt_le_weak, Hdraw.
    - apply elem_of_zip_l in Hc. apply (np_where_in_bounds _ _ _ Hwf Hc). }
  rewrite E1 in E1'. injection E1' as <-.
  pose proof (np_where_complete _ _ _ Hi) as Hin.
  destruct (elem_of_zip_same_length _
              (uniform g <$> seq 0 (length (np_where (self_map self) INFECTED)))
              _ Hin) as [r Hr].
  { rewrite length_fmap, length_seq. reflexivity. }
  specialize (Hall _ Hr). cbn [fst snd] in Hall. rewrite offset_unravel in Hall.
  rewrite Hall; [reflexivity |]. eapply lookup_lt_Some; eassumption.
Qed.

Lemma step_recover_rate_one_witness :
  exists s' g',
    step recovering_sim (const_state (1 # 2) 0) = Ok (s', g') /\
    forall xy, getitem (self_map recovering_sim) xy = Ok INFECTED ->
               getitem (self_map s') xy = Ok RECOVER.
Proof.
  apply (step_recover_rate_one recovering_sim (const_state (1 # 2) 0)).
  - split; [| reflexivity]. unfold ndarray_wf; simpl. lia.
  - reflexivity.
  - reflexivity.
  - intros i. simpl. split; reflexivity || discriminate.
Defined.

(** ** The 3x3 scenario *)

Lemma transitions_scenario_3x3 g :
  (forall i, (0 < uniform g i)%Q /\ (uniform g i < 1)%Q) ->
  exists g',
    transitions scenario_3x3 g =
    Ok (set_map scenario_3x3
          (grid 3 3 [SUSCEPTIBLE; LATENT; LATENT;
                     LATENT; INFECTED; LATENT;
                     LATENT; LATENT; LATENT]), g').
Proof.
  intros Hd.
  assert (H0 : forall i, Qle_bool (uniform g i) 0 = false).
  { intros i. destruct (Qle_bool (uniform g i) 0) eqn:E; [| reflexivity].
    apply Qle_bool_iff in E. destruct (Hd i) as [Hp _].
    exfalso. eapply Qlt_not_le; eassumption. }
  assert (H1 : forall i, Qle_bool (uniform g i) 1 = true).
  { intros i. apply Qle_bool_iff, Qlt_le_weak, Hd. }
  unfold transitions, np_rand, recover_loop, symptom_loop, infect_loop,
    scenario_3x3, skip_uniform.
  cbv beta iota zeta.
  cbn [self_map self_recover self_symptom self_infect self_size uniform].
  eval_arrays. cbn [fmap list_fmap zip_with for_each].
  unfold advance at 1. cbn [fst snd]. rewrite H0. cbn [bind].
  eval_arrays. cbn [fmap list_fmap zip_with for_each bind].
  eval_arrays. cbn [fmap list_fmap zip_with for_each bind].
  repeat (unfold infect_one at 1; cbn [fst snd]; rewrite H1; eval_arrays;
          cbn [bind for_each]).
  eexists. reflexivity.
Qed.

(** C1, as amended: on the 3x3 grid with an Infected centre, infection
    probability 1 and the other three probabilities 0, for all draws
    strictly between 0 and 1, one [step] leaves the centre Infected, makes
    its four neighbours Latent, and also makes the corners (0,2), (2,0) and
    (2,2) Latent, because each of them is visited after a neighbour that has
    just become Latent; only the corner (0,0), visited first, stays
    Susceptible. *)
Theorem step_scenario_3x3 g :
  (forall i, (0 < uniform g i)%Q /\ (uniform g i < 1)%Q) ->
  exists s' g',
    step scenario_3x3 g = Ok (s', g') /\
    self_n s' = 1 /\
    self_map s' = grid 3 3 [SUSCEPTIBLE; LATENT; LATENT;
                            LATENT; INFECTED; LATENT;
                            LATENT; LATENT; LATENT].
Proof.
  intros Hd. destruct (transitions_scenario_3x3 g Hd) as [g' Ht].
  rewrite (step_no_moving scenario_3x3 g _ g' (Qle_refl 0) Ht).
  eexists. eexists. split; [reflexivity |]. split; reflexivity.
Qed.

Lemma step_scenario_3x3_witness :
  exists s' g',
    step scenario_3x3 (const_state (1 # 2) 0) = Ok (s', g') /\
    self_n s' = 1 /\
    self_map s' = grid 3 3 [SUSCEPTIBLE; LATENT; LATENT;
                            LATENT; INFECTED; LATENT;
                            LATENT; LATENT; LATENT].
Proof.
  apply (step_scenario_3x3 (const_state (1 # 2) 0)).
  intros i. simpl. split; reflexivity.
Defined.

(** C1, as stated, fails: with every draw equal to 1/2 the corner (0,2) is
    Latent after one [step], not Susceptible (and so are (2,0) and
    (2,2)). *)
Lemma step_scenario_3x3_corners :
  exists s' g',
    step scenario_3x3 (const_state (1 # 2) 0) = Ok (s', g') /\
    getitem (self_map s') (0, 2) = Ok LATENT /\
    getitem (self_map s') (2, 0) = Ok LATENT /\
    getitem (self_map s') (2, 2) = Ok LATENT /\
    getitem (self_map s') (0, 2) <> Ok SUSCEPTIBLE.
Proof.
  eexists. eexists. split; [vm_compute; reflexivity |].
  repeat split; [reflexivity .. | discriminate].
Qed.

(** ** A rate of zero and a draw of zero *)

(** With an infection probability of 0 and draws above 0, the infect loop
    leaves the map as it is. *)
Lemma infect_loop_rate_zero self m infect_rate :
  (self_infect self == 0)%Q ->
  Forall (fun r => (0 < r)%Q) infect_rate ->
  infect_loop self m infect_rate = Ok m.
Proof.
  intros Hrate Hdraws. unfold infect_loop.
  assert (Hfail : Forall (fun c : Z * Z * Q => Qle_bool (snd c) (self_infect self) = false)
                    (zip (np_where m SUSCEPTIBLE) infect_rate)).
  { apply Forall_forall. intros [xy r] Hc. apply elem_of_zip_r in Hc. cbn [snd].
    rewrite Forall_forall in Hdraws. specialize (Hdraws r Hc).
    destruct (Qle_bool r (self_infect self)) eqn:E; [| reflexivity].
    apply Qle_bool_iff in E. rewrite Hrate in E.
    exfalso. eapply Qlt_not_le; eassumption. }
  induction Hfail as [| c l Hc Hl IH]; [reflexivity |].
  cbn [for_each]. unfold infect_one at 1. rewrite Hc. cbn [bind]. exact IH.
Qed.

(** C4 on the code: with an infection probability of 0 and a draw equal to
    0.0, the test [r <= self.infect] passes, and the Susceptible site (0,0)
    next to a Recovered one becomes Latent. *)
Lemma step_infect_zero_draw_zero :
  exists s' g',
    step zero_rate_sim (const_state 0 0) = Ok (s', g') /\
    getitem (self_map zero_rate_sim) (0, 0) = Ok SUSCEPTIBLE /\
    getitem (self_map s') (0, 0) = Ok LATENT.
Proof.
  eexists. eexists. split; [vm_compute; reflexivity |].
  split; reflexivity.
Qed.

(** ** Construction *)

Lemma np_full_ok {A : Type} size (v : A) :
  0 <= fst size -> 0 <= snd size ->
  np_full size v = Ok (mk_ndarray size (replicate (Z.to_nat (fst size * snd size)) v)).
Proof.
  intros Hx Hy. unfold np_full.
  replace (fst size <? 0) with false by (symmetry; apply Z.ltb_ge; lia).
  replace (snd size <? 0) with false by (symmetry; apply Z.ltb_ge; lia).
  reflexivity.
Qed.

(** C3, as amended: [__init__] checks none of its arguments.  Whatever the
    four probabilities are, inside [[0, 1]] or not, construction with
    non-negative dimensions succeeds, stores the arguments, fills every site
    with Susceptible and sets the step counter to 0. *)
Theorem init_accepts_any_rates size infect symptom recover moving :
  0 <= fst size -> 0 <= snd size ->
  exists s,
    init size infect symptom recover moving = Ok s /\
    self_size s = size /\
    self_infect s = infect /\ self_symptom s = symptom /\
    self_recover s = recover /\ self_moving s = moving /\
    self_n s = 0 /\
    sim_wf s /\
    forall xy, in_bounds (self_map s) xy ->
               getitem (self_map s) xy = Ok SUSCEPTIBLE.
Proof.
  intros Hx Hy. unfold init, np_ones. rewrite np_full_ok by assumption.
  cbn [bind]. eexists. split; [reflexivity |]. cbn.
  repeat (split; [reflexivity |]).
  assert (Hwf : ndarray_wf
            (ndarray_scale
               (mk_ndarray size (replicate (Z.to_nat (fst size * snd size)) 1))
               SUSCEPTIBLE)).
  { unfold ndarray_wf, ndarray_scale. cbn [shape data].
    rewrite length_fmap, length_replicate. repeat split; try assumption.
    apply Z2Nat.id. nia. }
  split; [split; [exact Hwf | reflexivity] |].
  intros xy Hin.
  destruct (getitem_ok _ _ Hwf Hin) as (v & Hv & ->).
  unfold ndarray_scale in Hv. cbn [data] in Hv.
  rewrite list_lookup_fmap in Hv.
  destruct (replicate _ 1 !! _) as [w |] eqn:Ew; [| discriminate].
  apply lookup_replicate in Ew as [-> _]. injection Hv as <-. reflexivity.
Qed.

Lemma init_accepts_any_rates_witness :
  exists s,
    init (2, 3) (3 # 10) (1 # 5) (1 # 10) (1 # 2) = Ok s /\
    self_size s = (2, 3) /\
    self_infect s = 3 # 10 /\ self_symptom s = 1 # 5 /\
    self_recover s = 1 # 10 /\ self_moving s = 1 # 2 /\
    self_n s = 0 /\
    sim_wf s /\
    forall xy, in_bounds (self_map s) xy ->
               getitem (self_map s) xy = Ok SUSCEPTIBLE.
Proof.
  apply (init_accepts_any_rates (2, 3) (3 # 10) (1 # 5) (1 # 10) (1 # 2));
    simpl; lia.
Defined.

(** C3, as stated, fails: an infection probability of 2 and a recovery
    probability of -1 are accepted, and so is a grid of width 0. *)
Lemma init_accepts_invalid_parameters :
  ~ (2 <= 1)%Q /\ ~ (0 <= -1)%Q /\
  init (3, 3) 2 0 (-1) 0 =
    Ok (mk_sim (3, 3) 2 0 (-1) 0 (grid 3 3 [1; 1; 1; 1; 1; 1; 1; 1; 1]) 0) /\
  init (0, 3) 0 0 0 0 = Ok (mk_sim (0, 3) 0 0 0 0 (grid 0 3 []) 0).
Proof.
  split; [intros H; unfold Qle in H; simpl in H; lia |].
  split; [intros H; unfold Qle in H; simpl in H; lia |].
  split; reflexivity.
Qed.

(** ** Seeding *)

Lemma mask_assign_ok {A : Type} (a : ndarray A) (mask : ndarray bool) (v : A) :
  shape mask = shape a ->
  mask_assign a mask v =
  Ok (mk_ndarray (shape a)
        (zip_with (fun (b : bool) c => if b then v else c) (data mask) (data a))).
Proof.
  intros H. unfold mask_assign. rewrite H, !Z.eqb_refl. reflexivity.
Qed.

(** C6, as amended: [initialize] checks nothing about [state].  For any
    integer [state] that the float64 map holds exactly (at most 2^53 in
    magnitude), one of the four states or not, the call returns, and a site
    holds [state] afterwards when its draw is strictly below [ratio] and
    keeps its value otherwise. *)
Theorem initialize_any_state self ratio state g :
  sim_wf self ->
  exact_in_float64 state ->
  exists s' g',
    initialize self ratio state g = Ok (s', g') /\
    shape (self_map s') = shape (self_map self) /\
    forall xy v,
      in_bounds (self_map self) xy ->
      getitem (self_map self) xy = Ok v ->
      getitem (self_map s') xy =
      Ok (if Qlt_bool (uniform g (offset (self_map self) (fst xy) (snd xy))) ratio
          then state else v).
Proof.
  intros [Hwf Hs] _. pose proof Hwf as (Hx & Hy & Hlen).
  unfold initialize, np_rand2, np_rand. rewrite <- Hs.
  replace (fst (shape (self_map self)) <? 0) with false
    by (symmetry; apply Z.ltb_ge; lia).
  replace (snd (shape (self_map self)) <? 0) with false
    by (symmetry; apply Z.ltb_ge; lia).
  cbn [orb bind]. rewrite mask_assign_ok by reflexivity. cbn [bind].
  eexists. eexists. split; [reflexivity |]. cbn [self_map set_map shape].
  split; [reflexivity |].
  intros xy v Hin Hget.
  rewrite getitem_in in Hget by assumption.
  rewrite getitem_in by exact Hin. unfold offset at 1. cbn [shape data ndarray_lt].
  fold (offset (self_map self) (fst xy) (snd xy)).
  pose proof (offset_lt _ _ Hwf Hin) as Hlt.
  set (k := offset (self_map self) (fst xy) (snd xy)) in *.
  destruct (data (self_map self) !! k) as [w |] eqn:Ew; [| discriminate].
  injection Hget as ->.
  rewrite lookup_zip_with, !list_lookup_fmap, lookup_seq_lt, Ew by lia.
  reflexivity.
Qed.

Lemma initialize_any_state_witness :
  exists s' g',
    initialize seed_sim 1 7 (const_state (1 # 2) 0) = Ok (s', g') /\
    shape (self_map s') = shape (self_map seed_sim) /\
    forall xy v,
      in_bounds (self_map seed_sim) xy ->
      getitem (self_map seed_sim) xy = Ok v ->
      getitem (self_map s') xy =
      Ok (if Qlt_bool
               (uniform (const_state (1 # 2) 0)
                  (offset (self_map seed_sim) (fst xy) (snd xy))) 1
          then 7 else v).
Proof.
  apply (initialize_any_state seed_sim 1 7 (const_state (1 # 2) 0)).
  - split; [| reflexivity]. unfold ndarray_wf; simpl. lia.
  - unfold exact_in_float64. simpl. lia.
Defined.

(** C6, as stated, fails: seeding with the value 7, which is none of the four
    states, raises nothing and overwrites the only site of a 1x1 grid. *)
Lemma initialize_invalid_state_mutates :
  exists s' g',
    initialize seed_sim 1 7 (const_state (1 # 2) 0) = Ok (s', g') /\
    self_map s' = grid 1 1 [7] /\
    self_map s' <> self_map seed_sim.
Proof.
  eexists. eexists. split; [vm_compute; reflexivity |].
  split; [reflexivity | discriminate].
Qed.

(** ** The display colours *)

Lemma display_colour_masks (l : list Z) :
  zip_with (fun (b : bool) c => if b then (55, 200, 55) else c)
    ((fun w => w =? RECOVER) <$> l)
    (zip_with (fun (b : bool) c => if b then (200, 55, 55) else c)
       ((fun w => w =? INFECTED) <$> l)
       (zip_with (fun (b : bool) c => if b then (255, 255, 55) else c)
          ((fun w => w =? LATENT) <$> l)
          (zip_with (fun (b : bool) c => if b then (55, 55, 200) else c)
             ((fun w => w =? SUSCEPTIBLE) <$> l)
             (replicate (length l) (0, 0, 0)))))
  = display_colour <$> l.
Proof.
  induction l as [| v l IH]; [reflexivity |].
  cbn [length replicate fmap list_fmap zip_with]. f_equal; [| exact IH].
  unfold display_colour, SUSCEPTIBLE, LATENT, INFECTED, RECOVER.
  destruct (v =? 1) eqn:E1; destruct (v =? 2) eqn:E2;
    destruct (v =? 3) eqn:E3; destruct (v =? 4) eqn:E4;
    try reflexivity;
    repeat match goal with H : (_ =? _) = true |- _ => apply Z.eqb_eq in H end;
    lia.
Qed.

(** C10: [convert_to_rgb] returns for every grid; the result has the shape
    of the grid, and each of its sites holds the colour of the state at that
    site: (55,55,200) for Susceptible, (255,255,55) for Latent, (200,55,55)
    for Infected, (55,200,55) for Recovered, and (0,0,0) for any other
    value. *)
Theorem convert_to_rgb_total d :
  ndarray_wf d ->
  exists rgb,
    convert_to_rgb d = Ok rgb /\
    shape rgb = shape d /\
    data rgb = display_colour <$> data d /\
    forall xy v, getitem d xy = Ok v -> getitem rgb xy = Ok (display_colour v).
Proof.
  intros (Hx & Hy & Hlen). unfold convert_to_rgb.
  rewrite np_full_ok by assumption. cbn [bind].
  repeat (rewrite mask_assign_ok by reflexivity; cbn [bind shape data]).
  unfold ndarray_eq. cbn [shape data].
  eexists. split; [reflexivity |]. cbn [shape data].
  assert (Hdata : forall l : list Z, Z.of_nat (length l) = fst (shape d) * snd (shape d) ->
            replicate (Z.to_nat (fst (shape d) * snd (shape d))) (0, 0, 0) =
            replicate (length l) (0, 0, 0)).
  { intros l <-. rewrite Nat2Z.id. reflexivity. }
  rewrite (Hdata _ Hlen), display_colour_masks.
  split; [reflexivity |]. split; [reflexivity |].
  intros xy v Hget.
  destruct (getitem_lookup _ _ _ Hget) as (i & Hi & Hread).
  rewrite (Hread _ (mk_ndarray (shape d) (display_colour <$> data d)) eq_refl).
  cbn [data]. rewrite list_lookup_fmap, Hi. reflexivity.
Qed.

Lemma convert_to_rgb_total_witness :
  exists rgb,
    convert_to_rgb (grid 2 3 [1; 2; 3; 4; 5; 0]) = Ok rgb /\
    shape rgb = (2, 3) /\
    data rgb = display_colour <$> [1; 2; 3; 4; 5; 0] /\
    forall xy v, getitem (grid 2 3 [1; 2; 3; 4; 5; 0]) xy = Ok v ->
                 getitem rgb xy = Ok (display_colour v).
Proof.
  apply (convert_to_rgb_total (grid 2 3 [1; 2; 3; 4; 5; 0])).
  unfold ndarray_wf; simpl. lia.
Defined.

(** ** The exchange *)

Lemma py_int_nonneg q : (0 <= q)%Q -> 0 <= py_int q.
Proof.
  intros H. unfold py_int.
  apply Qle_bool_iff in H as Hb. rewrite Hb.
  change 0 with (Qfloor 0). apply Qfloor_resp_le. assumption.
Qed.

Lemma py_int_zero q : (q == 0)%Q -> py_int q = 0.
Proof.
  intros H. unfold py_int.
  assert (Hf : Qfloor q = 0) by (rewrite H; reflexivity).
  assert (Hc : Qceiling q = 0) by (rewrite H; reflexivity).
  rewrite Hf, Hc. destruct (Qle_bool 0 q); reflexivity.
Qed.

(** The number of attempts is not negative, and it is 0 on an empty grid. *)
Lemma attempts_count moving nx ny :
  (0 <= moving)%Q -> 0 <= nx -> 0 <= ny ->
  let n := py_int (moving * inject_Z nx * inject_Z ny) in
  0 <= n /\ (n <> 0 -> 0 < nx /\ 0 < ny).
Proof.
  intros Hm Hx Hy n. split.
  - apply py_int_nonneg.
    apply Qmult_le_0_compat; [apply Qmult_le_0_compat |]; try assumption.
    + change 0%Q with (inject_Z 0). rewrite <- Zle_Qle. assumption.
    + change 0%Q with (inject_Z 0). rewrite <- Zle_Qle. assumption.
  - intros Hn.
    destruct (Z.eq_dec nx 0) as [-> | Hnx].
    { exfalso. apply Hn. apply py_int_zero. simpl. ring. }
    destruct (Z.eq_dec ny 0) as [-> | Hny].
    { exfalso. apply Hn. apply py_int_zero. simpl. ring. }
    lia.
Qed.

Lemma np_randint_ok low high k g :
  0 <= k -> (k <> 0 -> low < high) ->
  exists l g',
    np_randint low high k g = Ok (l, g') /\
    Forall (fun x => low <= x < high) l.
Proof.
  intros Hk Hr. unfold np_randint.
  replace (k <? 0) with false by (symmetry; apply Z.ltb_ge; lia).
  destruct (k =? 0) eqn:E0.
  - eexists. eexists. split; [reflexivity | constructor].
  - apply Z.eqb_neq in E0. specialize (Hr E0).
    replace (high <=? low) with false by (symmetry; apply Z.leb_gt; lia).
    eexists. eexists. split; [reflexivity |].
    apply Forall_fmap, Forall_forall. intros i _. simpl.
    pose proof (Z.mod_pos_bound (integer g i) (high - low)). lia.
Qed.

Lemma Forall_zip3 {B C D : Type} (P : B -> Prop) (Q : C -> Prop)
    (lb : list B) (lc : list C) (ld : list D) :
  Forall P lb -> Forall Q lc ->
  Forall (fun a => P (fst (fst a)) /\ Q (snd (fst a))) (zip3 lb lc ld).
Proof.
  intros Hb. revert lc ld.
  induction Hb as [| b lb Hb Hlb IH]; intros lc ld Hc; [constructor |].
  destruct Hc as [| c lc Hc Hlc]; [constructor |].
  destruct ld as [| d ld]; [constructor |].
  constructor; [split; assumption |]. apply IH. assumption.
Qed.

(** Every attempt starts at a site of the grid. *)
Lemma exchange_attempts_ok self g :
  (0 <= self_moving self)%Q ->
  0 <= fst (self_size self) -> 0 <= snd (self_size self) ->
  exists attempts g',
    exchange_attempts self g = Ok (attempts, g') /\
    Forall (fun a => 0 <= fst (fst a) < fst (self_size self) /\
                     0 <= snd (fst a) < snd (self_size self)) attempts.
Proof.
  intros Hm Hx Hy. unfold exchange_attempts.
  destruct (attempts_count _ _ _ Hm Hx Hy) as [Hn Hpos].
  set (n := py_int _) in *.
  destruct (np_randint_ok 0 (fst (self_size self)) n g Hn)
    as (xs & g1 & -> & Hxs); [intros H; apply Hpos, H |].
  cbn [bind].
  destruct (np_randint_ok 0 (snd (self_size self)) n g1 Hn)
    as (ys & g2 & -> & Hys); [intros H; apply Hpos, H |].
  cbn [bind].
  destruct (np_randint_ok 0 4 n g2 Hn) as (ds & g3 & -> & _); [lia |].
  cbn [bind].
  eexists. eexists. split; [reflexivity |].
  apply (Forall_zip3 (fun x => 0 <= x < fst (self_size self))
           (fun y => 0 <= y < snd (self_size self))); assumption.
Qed.

Lemma exchange_target_in_bounds (m : ndarray Z) x y d xy2 :
  in_bounds m (x, y) ->
  exchange_target (shape m) x y d = Some xy2 ->
  in_bounds m xy2.
Proof.
  intros [Hx Hy]. simpl in Hx, Hy. unfold exchange_target.
  destruct (d =? 0).
  { destruct (x =? 0) eqn:E; [discriminate |]. apply Z.eqb_neq in E.
    intros [= <-]. split; simpl; lia. }
  destruct (d =? 1).
  { destruct (x =? fst (shape m) - 1) eqn:E; [discriminate |]. apply Z.eqb_neq in E.
    intros [= <-]. split; simpl; lia. }
  destruct (d =? 2).
  { destruct (y =? 0) eqn:E; [discriminate |]. apply Z.eqb_neq in E.
    intros [= <-]. split; simpl; lia. }
  destruct (y =? snd (shape m) - 1) eqn:E; [discriminate |]. apply Z.eqb_neq in E.
  intros [= <-]. split; simpl; lia.
Qed.

(** One attempt either does nothing or swaps two sites. *)
Lemma exchange_one_permutes m a :
  ndarray_wf m -> in_bounds m (fst a) ->
  exists m',
    exchange_one (shape m) m a = Ok m' /\
    shape m' = shape m /\ data m' ≡ₚ data m.
Proof.
  intros Hwf Hin. destruct a as [[x y] d]. cbn [fst] in Hin.
  unfold exchange_one.
  destruct (exchange_target (shape m) x y d) as [xy2 |] eqn:Et.
  - pose proof (exchange_target_in_bounds _ _ _ _ _ Hin Et) as Hin2.
    destruct (getitem_ok _ _ Hwf Hin) as (temp & Htemp & ->).
    destruct (getitem_ok _ _ Hwf Hin2) as (v & Hv & ->).
    cbn [bind]. rewrite setitem_in by assumption. cbn [bind].
    rewrite setitem_in by exact Hin2.
    eexists. split; [reflexivity |]. cbn [shape data]. split; [reflexivity |].
    unfold offset at 1. cbn [shape].
    fold (offset m (fst xy2) (snd xy2)).
    apply Permutation_insert_swap; assumption.
  - exists m. auto.
Qed.

Lemma exchange_loop_permutes size attempts :
  forall m,
    ndarray_wf m -> shape m = size ->
    Forall (fun a => in_bounds m (fst a)) attempts ->
    exists m',
      for_each (exchange_one size) attempts m = Ok m' /\
      shape m' = shape m /\ data m' ≡ₚ data m.
Proof.
  induction attempts as [| a l IH]; intros m Hwf Hs Hl.
  - exists m. auto.
  - inversion Hl as [| ? ? Ha Hl']; subst. cbn [for_each].
    destruct (exchange_one_permutes m a Hwf Ha) as (m1 & -> & Hs1 & Hp1).
    cbn [bind].
    destruct (IH m1) as (m' & E & Hs' & Hp').
    + destruct Hwf as (Hx & Hy & Hlen). unfold ndarray_wf.
      rewrite Hs1, (Permutation_length Hp1). auto.
    + assumption.
    + eapply Forall_impl; [exact Hl' |]. intros a'. unfold in_bounds.
      rewrite Hs1. auto.
    + exists m'. split; [assumption |].
      split; [congruence |]. etransitivity; eassumption.
Qed.

Lemma count_state_permutation v (m m' : ndarray Z) :
  data m' ≡ₚ data m -> count_state v m' = count_state v m.
Proof.
  intros H. unfold count_state. rewrite H. reflexivity.
Qed.

(** C9: [exchange] returns and preserves the multiset of the states on the
    grid: the buffer afterwards is a permutation of the buffer before, so
    every state is held by as many sites as before, for every grid, every
    movement probability that is not negative and every generator state. *)
Theorem exchange_preserves_states self g :
  sim_wf self -> (0 <= self_moving self)%Q ->
  exists s' g',
    exchange self g = Ok (s', g') /\
    sim_wf s' /\
    data (self_map s') ≡ₚ data (self_map self) /\
    forall v, count_state v (self_map s') = count_state v (self_map self).
Proof.
  intros [Hwf Hs] Hm. pose proof Hwf as (Hx & Hy & Hlen).
  unfold exchange.
  destruct (exchange_attempts_ok self g Hm) as (attempts & g' & -> & Hin);
    [rewrite <- Hs; assumption .. |].
  cbn [bind].
  destruct (exchange_loop_permutes (self_size self) attempts (self_map self) Hwf Hs)
    as (m' & -> & Hs' & Hp).
  { eapply Forall_impl; [exact Hin |]. intros a. unfold in_bounds.
    rewrite Hs. auto. }
  cbn [bind]. eexists. eexists. split; [reflexivity |].
  unfold sim_wf, set_map. cbn [self_map self_size].
  split.
  { split; [| congruence].
    unfold ndarray_wf. rewrite Hs', (Permutation_length Hp). auto. }
  split; [assumption |].
  intros v. apply count_state_permutation. assumption.
Qed.

Lemma exchange_preserves_states_witness :
  exists s' g',
    exchange regress_sim regress_state = Ok (s', g') /\
    sim_wf s' /\
    data (self_map s') ≡ₚ data (self_map regress_sim) /\
    forall v, count_state v (self_map s') = count_state v (self_map regress_sim).
Proof.
  apply (exchange_preserves_states regress_sim regress_state).
  - split; [| reflexivity]. unfold ndarray_wf; simpl. lia.
  - simpl. unfold Qle; simpl. lia.
Defined.

Lemma exchange_loop_discards size attempts (m : ndarray Z) :
  Forall (fun a => exchange_target size (fst (fst a)) (snd (fst a)) (snd a) = None)
    attempts ->
  for_each (exchange_one size) attempts m = Ok m.
Proof.
  induction 1 as [| [[x y] d] l Ha Hl IH]; [reflexivity |].
  cbn [for_each]. unfold exchange_one at 1. cbn [fst snd] in Ha. rewrite Ha.
  cbn [bind]. exact IH.
Qed.

Lemma exchange_target_1x1 x y d :
  0 <= x < 1 -> 0 <= y < 1 -> exchange_target (1, 1) x y d = None.
Proof.
  intros Hx Hy. assert (x = 0) as -> by lia. assert (y = 0) as -> by lia.
  unfold exchange_target. cbn [fst snd].
  destruct (d =? 0); [reflexivity |].
  destruct (d =? 1); [reflexivity |].
  destruct (d =? 2); reflexivity.
Qed.

(** C8: on a 1x1 grid, for every positive movement probability and every
    generator state, [exchange] returns, each of its attempts is discarded
    (its move leaves the grid, whatever the direction), and the simulation,
    hence the grid, is unchanged. *)
Theorem exchange_1x1_unchanged self g :
  self_size self = (1, 1) -> (0 < self_moving self)%Q ->
  exists attempts g',
    exchange_attempts self g = Ok (attempts, g') /\
    Forall (fun a => exchange_target (self_size self)
                       (fst (fst a)) (snd (fst a)) (snd a) = None) attempts /\
    exchange self g = Ok (self, g').
Proof.
  intros Hsize Hm.
  destruct (exchange_attempts_ok self g (Qlt_le_weak _ _ Hm))
    as (attempts & g' & E & Hin); [rewrite Hsize; simpl; lia .. |].
  assert (Hnone : Forall (fun a => exchange_target (self_size self)
                            (fst (fst a)) (snd (fst a)) (snd a) = None) attempts).
  { eapply Forall_impl; [exact Hin |]. intros a. rewrite Hsize. cbn [fst snd].
    intros [Hx Hy]. apply exchange_target_1x1; assumption. }
  exists attempts, g'. split; [assumption |]. split; [assumption |].
  unfold exchange. rewrite E. cbn [bind].
  rewrite (exchange_loop_discards _ _ _ Hnone). cbn [bind].
  destruct self; reflexivity.
Qed.

Lemma exchange_1x1_unchanged_witness :
  exists attempts g',
    exchange_attempts single_site_sim regress_state = Ok (attempts, g') /\
    Forall (fun a => exchange_target (self_size single_site_sim)
                       (fst (fst a)) (snd (fst a)) (snd a) = None) attempts /\
    exchange single_site_sim regress_state = Ok (single_site_sim, g').
Proof.
  apply (exchange_1x1_unchanged single_site_sim regress_state).
  - reflexivity.
  - reflexivity.
Defined.

(** ** The order of the visits in the infect phase *)

Lemma getitem_insert_ne {A : Type} (a : ndarray A) xy c (v : A) :
  in_bounds a xy -> in_bounds a c -> xy <> c ->
  getitem (mk_ndarray (shape a) (<[offset a (fst c) (snd c) := v]> (data a))) xy =
  getitem a xy.
Proof.
  intros Hxy Hc Hne.
  rewrite (getitem_in a xy Hxy).
  rewrite getitem_in by exact Hxy.
  unfold offset at 1. cbn [shape data]. fold (offset a (fst xy) (snd xy)).
  rewrite list_lookup_insert_ne; [reflexivity |].
  intros E. apply Hne.
  rewrite <- (unravel_offset a xy Hxy), <- (unravel_offset a c Hc), E.
  reflexivity.
Qed.

Lemma neighbors_in_bounds (m : ndarray Z) xy nb :
  in_bounds m xy -> nb ∈ neighbors (shape m) xy -> in_bounds m nb.
Proof.
  intros [Hx Hy] Hnb. unfold neighbors in Hnb.
  repeat (apply elem_of_cons in Hnb as [-> | Hnb]);
    [split; simpl; lia .. | inversion Hnb].
Qed.

(** The neighbour test only depends on the four positions that it reads. *)
Lemma has_infected_neighbor_ext size (m m' : ndarray Z) xy :
  (forall nb, nb ∈ neighbors size xy -> getitem m nb = getitem m' nb) ->
  has_infected_neighbor size m xy = has_infected_neighbor size m' xy.
Proof.
  intros H. destruct xy as [x y]. unfold has_infected_neighbor.
  unfold neighbors in H. cbn [fst snd] in H.
  rewrite (H (Z.max (x - 1) 0, y)) by (apply elem_of_cons; auto).
  rewrite (H (Z.min (x + 1) (fst size - 1), y))
    by (do 1 apply list_elem_of_further; apply elem_of_cons; auto).
  rewrite (H (x, Z.max (y - 1) 0))
    by (do 2 apply list_elem_of_further; apply elem_of_cons; auto).
  rewrite (H (x, Z.min (y + 1) (snd size - 1)))
    by (do 3 apply list_elem_of_further; apply elem_of_cons; auto).
  reflexivity.
Qed.

(** As long as no earlier visit with a passing draw was to a neighbour, the
    test on the live map is the test on the map of the start of the
    phase. *)
Lemma infect_in_place_snapshot size rate m0 :
  ndarray_wf m0 -> shape m0 = size ->
  forall l done m,
    Forall (fun c => in_bounds m0 (fst c)) l ->
    NoDup (fst <$> (done ++ l)) ->
    separated size rate (done ++ l) ->
    ndarray_wf m -> shape m = shape m0 ->
    (forall xy, in_bounds m0 xy ->
       (forall c, c ∈ done -> Qle_bool (snd c) rate = true -> fst c <> xy) ->
       getitem m xy = getitem m0 xy) ->
    for_each (infect_one size rate) l m =
    for_each (infect_one_snapshot size rate m0) l m.
Proof.
  intros Hwf0 Hs0 l. induction l as [| c l IH];
    intros done m Hl Hnd Hsep Hwf Hs Hagree; [reflexivity |].
  inversion Hl as [| ? ? Hc Hl']; subst.
  assert (Hassoc : done ++ c :: l = (done ++ [c]) ++ l)
    by (rewrite <- app_assoc; reflexivity).
  assert (Hin_m : forall xy, in_bounds m0 xy -> in_bounds m xy)
    by (intros xy; unfold in_bounds; rewrite Hs; auto).
  cbn [for_each]. unfold infect_one at 1, infect_one_snapshot at 1.
  destruct (Qle_bool (snd c) rate) eqn:Ep.
  - assert (Htest : has_infected_neighbor (shape m0) m (fst c) =
                    has_infected_neighbor (shape m0) m0 (fst c)).
    { apply has_infected_neighbor_ext. intros nb Hnb.
      apply Hagree; [eapply neighbors_in_bounds; eassumption |].
      intros c' Hc' Hp' Heq. subst nb.
      assert (Hsame : fst c' = fst c).
      { apply (Hsep c c'); try assumption.
        - apply elem_of_app. right. apply elem_of_cons. auto.
        - apply elem_of_app. auto. }
      rewrite fmap_app in Hnd. apply NoDup_app in Hnd as (_ & Hdis & _).
      apply (Hdis (fst c')).
      - apply list_elem_of_fmap_2. assumption.
      - rewrite Hsame. apply list_elem_of_fmap_2. apply elem_of_cons. auto. }
    rewrite Htest.
    destruct (has_infected_neighbor_ok (shape m0) m0 (fst c) Hwf0 eq_refl Hc) as [b ->].
    cbn [bind]. destruct b.
    + rewrite setitem_in by (apply Hin_m; assumption). cbn [bind].
      apply (IH (done ++ [c])).
      * assumption.
      * rewrite <- Hassoc. assumption.
      * rewrite <- Hassoc. assumption.
      * destruct Hwf as (Hx & Hy & Hlen). unfold ndarray_wf. cbn [shape data].
        rewrite length_insert. auto.
      * assumption.
      * intros xy Hxy Hnot.
        rewrite getitem_insert_ne.
        -- apply Hagree; [assumption |]. intros c' Hc'. apply Hnot.
           apply elem_of_app. auto.
        -- apply Hin_m; assumption.
        -- apply Hin_m; assumption.
        -- intros E. apply (Hnot c); [| assumption | auto].
           apply elem_of_app. right. apply elem_of_cons. auto.
    + apply (IH (done ++ [c])); try assumption.
      * rewrite <- Hassoc. assumption.
      * rewrite <- Hassoc. assumption.
      * intros xy Hxy Hnot. apply Hagree; [assumption |].
        intros c' Hc'. apply Hnot. apply elem_of_app. auto.
  - cbn [bind]. apply (IH (done ++ [c])); try assumption.
    + rewrite <- Hassoc. assumption.
    + rewrite <- Hassoc. assumption.
    + intros xy Hxy Hnot. apply Hagree; [assumption |].
      intros c' Hc'. apply Hnot. apply elem_of_app. auto.
Qed.

(** A loop whose iterations commute does not depend on the order. *)
Lemma for_each_permutation {S A : Type} (body : S -> A -> result S)
    (I : S -> Prop) (P : A -> Prop) :
  (forall s a, I s -> P a -> exists s', body s a = Ok s' /\ I s') ->
  (forall s a b, I s -> P a -> P b ->
     (let* s1 := body s a in body s1 b) = (let* s1 := body s b in body s1 a)) ->
  forall l1 l2, l1 ≡ₚ l2 ->
    forall s, I s -> Forall P l1 -> for_each body l1 s = for_each body l2 s.
Proof.
  intros Htotal Hcomm l1 l2 Hp.
  induction Hp as [| x l l' Hp IH | x y l | l l' l'' Hp1 IH1 Hp2 IH2];
    intros s Hs Hl.
  - reflexivity.
  - inversion Hl as [| ? ? Hx Hl']; subst. cbn [for_each].
    destruct (Htotal s x Hs Hx) as (s' & -> & Hs'). cbn [bind]. auto.
  - inversion Hl as [| ? ? Hy Hl1]; subst.
    inversion Hl1 as [| ? ? Hx Hl']; subst.
    cbn [for_each]. pose proof (Hcomm s y x Hs Hy Hx) as E.
    destruct (Htotal s y Hs Hy) as (s1 & E1 & Hs1).
    destruct (Htotal s x Hs Hx) as (s2 & E2 & Hs2).
    rewrite E1, E2 in *. cbn [bind] in *. rewrite E. reflexivity.
  - rewrite (IH1 s Hs Hl). apply IH2; [assumption |].
    rewrite <- Hp1. assumption.
Qed.

Lemma for_each_total {S A : Type} (body : S -> A -> result S)
    (I : S -> Prop) (P : A -> Prop) :
  (forall s a, I s -> P a -> exists s', body s a = Ok s' /\ I s') ->
  forall l s, I s -> Forall P l -> exists s', for_each body l s = Ok s' /\ I s'.
Proof.
  intros Htotal l. induction l as [| a l IH]; intros s Hs Hl.
  - exists s. auto.
  - inversion Hl as [| ? ? Ha Hl']; subst. cbn [for_each].
    destruct (Htotal s a Hs Ha) as (s1 & -> & Hs1). cbn [bind]. auto.
Qed.

Lemma infect_one_snapshot_total size rate m0 m c :
  ndarray_wf m0 -> shape m0 = size ->
  ndarray_wf m /\ shape m = shape m0 -> in_bounds m0 (fst c) ->
  exists m', infect_one_snapshot size rate m0 m c = Ok m' /\
             (ndarray_wf m' /\ shape m' = shape m0).
Proof.
  intros Hwf0 Hs0 [Hwf Hs] Hc. unfold infect_one_snapshot.
  destruct (Qle_bool (snd c) rate); [| eauto].
  destruct (has_infected_neighbor_ok size m0 (fst c) Hwf0 Hs0 Hc) as [b ->].
  cbn [bind]. destruct b; [| eauto].
  rewrite setitem_in by (unfold in_bounds; rewrite Hs; exact Hc).
  eexists. split; [reflexivity |]. cbn [shape data]. split; [| assumption].
  destruct Hwf as (Hx & Hy & Hlen). unfold ndarray_wf. cbn [shape data].
  rewrite length_insert. auto.
Qed.

Lemma setitem_commute (m : ndarray Z) a b v :
  in_bounds m a -> in_bounds m b ->
  (let* m1 := setitem m a v in setitem m1 b v) =
  (let* m1 := setitem m b v in setitem m1 a v).
Proof.
  intros Ha Hb. rewrite !setitem_in by assumption. cbn [bind].
  rewrite !setitem_in by assumption. cbn [shape data]. f_equal. f_equal.
  unfold offset. cbn [shape].
  destruct (decide (Z.to_nat (fst b * snd (shape m) + snd b) =
                    Z.to_nat (fst a * snd (shape m) + snd a))) as [-> | Hne].
  - reflexivity.
  - apply list_insert_insert_ne. assumption.
Qed.

Lemma infect_one_snapshot_commute size rate m0 m a b :
  ndarray_wf m0 -> shape m0 = size ->
  shape m = shape m0 -> in_bounds m0 (fst a) -> in_bounds m0 (fst b) ->
  (let* m1 := infect_one_snapshot size rate m0 m a in
   infect_one_snapshot size rate m0 m1 b) =
  (let* m1 := infect_one_snapshot size rate m0 m b in
   infect_one_snapshot size rate m0 m1 a).
Proof.
  intros Hwf0 Hs0 Hs Ha Hb.
  assert (Ha' : in_bounds m (fst a)) by (unfold in_bounds; rewrite Hs; exact Ha).
  assert (Hb' : in_bounds m (fst b)) by (unfold in_bounds; rewrite Hs; exact Hb).
  unfold infect_one_snapshot.
  destruct (has_infected_neighbor_ok size m0 (fst a) Hwf0 Hs0 Ha) as [ta ->].
  destruct (has_infected_neighbor_ok size m0 (fst b) Hwf0 Hs0 Hb) as [tb ->].
  destruct (Qle_bool (snd a) rate), (Qle_bool (snd b) rate), ta, tb;
    cbn [bind]; try reflexivity;
    try (rewrite setitem_in by assumption; reflexivity).
  apply setitem_commute; assumption.
Qed.

Lemma separated_permutation size rate l1 l2 :
  l1 ≡ₚ l2 -> separated size rate l1 -> separated size rate l2.
Proof.
  intros Hp Hsep c c' Hc Hc'. apply Hsep; rewrite Hp; assumption.
Qed.

(** C2, as amended: the infect phase tests the neighbours on the live map,
    so the order of the visits matters in general.  It does not when the
    visited sites are pairwise different and no two of them whose draws
    pass are neighbours: then every order of the visits returns the same
    grid, which is the grid obtained by testing every site against the map
    of the start of the phase. *)
Theorem infect_order_independent size rate m l1 l2 :
  ndarray_wf m -> shape m = size ->
  Forall (fun c => in_bounds m (fst c)) l1 ->
  NoDup (fst <$> l1) ->
  separated size rate l1 ->
  l1 ≡ₚ l2 ->
  exists m',
    for_each (infect_one size rate) l1 m = Ok m' /\
    for_each (infect_one size rate) l2 m = Ok m' /\
    for_each (infect_one_snapshot size rate m) l1 m = Ok m'.
Proof.
  intros Hwf Hs Hl Hnd Hsep Hp.
  assert (Htotal : forall s a, ndarray_wf s /\ shape s = shape m ->
            in_bounds m (fst a) ->
            exists s', infect_one_snapshot size rate m s a = Ok s' /\
                       (ndarray_wf s' /\ shape s' = shape m))
    by (intros; apply infect_one_snapshot_total; assumption).
  destruct (for_each_total _ _ _ Htotal l1 m (conj Hwf eq_refl) Hl) as (m' & E & _).
  exists m'.
  assert (E1 : for_each (infect_one size rate) l1 m =
               for_each (infect_one_snapshot size rate m) l1 m).
  { apply (infect_in_place_snapshot size rate m Hwf Hs l1 []); auto. }
  assert (E2 : for_each (infect_one size rate) l2 m =
               for_each (infect_one_snapshot size rate m) l2 m).
  { apply (infect_in_place_snapshot size rate m Hwf Hs l2 []); auto.
    - rewrite <- Hp. assumption.
    - cbn [app]. rewrite <- Hp. assumption.
    - cbn [app]. eapply separated_permutation; eassumption. }
  assert (E3 : for_each (infect_one_snapshot size rate m) l1 m =
               for_each (infect_one_snapshot size rate m) l2 m).
  { apply (for_each_permutation _
             (fun s => ndarray_wf s /\ shape s = shape m)
             (fun a => in_bounds m (fst a))); auto.
    intros s a b [_ Hss] Ha Hb.
    apply infect_one_snapshot_commute; assumption. }
  rewrite E1, E2, <- E3, E. auto.
Qed.

Lemma infect_order_independent_witness :
  exists m',
    for_each (infect_one (1, 3) 1) apart_visits apart_map = Ok m' /\
    for_each (infect_one (1, 3) 1) apart_visits_reversed apart_map = Ok m' /\
    for_each (infect_one_snapshot (1, 3) 1 apart_map) apart_visits apart_map = Ok m'.
Proof.
  apply (infect_order_independent (1, 3) 1 apart_map apart_visits
           apart_visits_reversed).
  - unfold ndarray_wf; simpl. lia.
  - reflexivity.
  - repeat constructor; simpl; lia.
  - apply (bool_decide_unpack _). vm_compute. exact I.
  - intros c c' Hc Hc' _ _ Hn. unfold apart_visits in Hc, Hc'.
    apply elem_of_cons in Hc as [-> | Hc];
      [| apply elem_of_cons in Hc as [-> | Hc]; [| inversion Hc]];
      (apply elem_of_cons in Hc' as [-> | Hc'];
       [| apply elem_of_cons in Hc' as [-> | Hc']; [| inversion Hc']]);
      try reflexivity; exfalso; vm_compute in Hn;
      repeat (apply elem_of_cons in Hn as [Hn | Hn]; [discriminate Hn |]);
      inversion Hn.
  - apply Permutation_swap.
Defined.

(** C2, as stated, fails: on the row [Susceptible, Susceptible, Infected]
    with an infection probability of 1, visiting (0,0) then (0,1), which is
    the order of [step], infects only (0,1), and visiting (0,1) then (0,0)
    infects both, each site keeping its draw of 1/2. *)
Lemma infect_order_matters :
  zip (np_where row_map SUSCEPTIBLE) [1 # 2; 1 # 2]%Q = row_major_visits /\
  row_major_visits ≡ₚ reversed_visits /\
  for_each (infect_one (1, 3) 1) row_major_visits row_map =
    Ok (grid 1 3 [SUSCEPTIBLE; LATENT; INFECTED]) /\
  for_each (infect_one (1, 3) 1) reversed_visits row_map =
    Ok (grid 1 3 [LATENT; LATENT; INFECTED]) /\
  for_each (infect_one (1, 3) 1) row_major_visits row_map <>
  for_each (infect_one (1, 3) 1) reversed_visits row_map.
Proof.
  split; [reflexivity |].
  split; [apply Permutation_swap |].
  split; [reflexivity |].
  split; [reflexivity |].
  discriminate.
Qed.

(** * Further properties of the methods *)

(** ** What one call of [step] is made of *)

Lemma Qlt_bool_true x y : Qlt_bool x y = true -> (x < y)%Q.
Proof.
  unfold Qlt_bool. intros H. apply negb_true_iff in H.
  apply Qnot_le_lt. intros Hle. apply Qle_bool_iff in Hle. congruence.
Qed.

Lemma exchange_permutes self g :
  sim_wf self -> (0 <= self_moving self)%Q ->
  exists m' g',
    exchange self g = Ok (set_map self m', g') /\
    shape m' = shape (self_map self) /\
    data m' ≡ₚ data (self_map self).
Proof.
  intros [Hwf Hs] Hm. pose proof Hwf as (Hx & Hy & Hlen). unfold exchange.
  destruct (exchange_attempts_ok self g Hm) as (attempts & g' & -> & Hin);
    [rewrite <- Hs; assumption .. |].
  cbn [bind].
  destruct (exchange_loop_permutes (self_size self) attempts (self_map self) Hwf Hs)
    as (m' & -> & Hs' & Hp).
  { eapply Forall_impl; [exact Hin |]. intros a. unfold in_bounds.
    rewrite Hs. auto. }
  cbn [bind]. exists m', g'. auto.
Qed.

(** One call of [step]: three maps related by the three phases, then a
    permutation of the last one, which is that map itself when there is no
    movement. *)
Lemma step_structure self g :
  sim_wf self ->
  exists m1 m2 m3 m4 g',
    advanced INFECTED RECOVER (self_map self) m1 /\
    advanced LATENT INFECTED m1 m2 /\
    advanced SUSCEPTIBLE LATENT m2 m3 /\
    shape m4 = shape m3 /\
    data m4 ≡ₚ data m3 /\
    ((self_moving self <= 0)%Q -> m4 = m3) /\
    step self g =
    Ok (mk_sim (self_size self) (self_infect self) (self_symptom self)
          (self_recover self) (self_moving self) m4 (self_n self + 1), g').
Proof.
  intros Hwf.
  destruct (transitions_advanced self g Hwf)
    as (m1 & m2 & m3 & g1 & Ht & _ & A1 & A2 & A3).
  destruct Hwf as [Hwf Hs].
  assert (Hwf3 : ndarray_wf m3).
  { eapply advanced_wf; [| exact A3]. eapply advanced_wf; [| exact A2].
    eapply advanced_wf; [| exact A1]. assumption. }
  assert (Hs3 : shape m3 = self_size self)
    by (rewrite (proj1 A3), (proj1 A2), (proj1 A1); assumption).
  unfold step. rewrite Ht. cbn [bind].
  change (self_moving (set_map self m3)) with (self_moving self).
  destruct (Qlt_bool 0 (self_moving self)) eqn:E.
  - apply Qlt_bool_true in E.
    destruct (exchange_permutes (set_map self m3) g1) as (m4 & g2 & -> & Hs4 & Hp).
    { split; assumption. }
    { apply Qlt_le_weak. assumption. }
    cbn [bind]. exists m1, m2, m3, m4, g2.
    repeat (split; [assumption |]).
    split; [| reflexivity].
    intros Hle. exfalso. eapply Qlt_not_le; eassumption.
  - cbn [bind]. exists m1, m2, m3, m3, g1.
    repeat (split; [assumption |]).
    split; [reflexivity |]. split; [reflexivity |]. split; reflexivity.
Qed.

Lemma advanced_valid v0 t m m' :
  valid_state t -> advanced v0 t m m' -> valid_grid m -> valid_grid m'.
Proof.
  intros Ht [_ Hadv] Hv. unfold valid_grid in *.
  apply Forall_lookup. intros i x Hx.
  destruct (Hadv i) as [E | [_ E]].
  - rewrite E in Hx. eapply Forall_lookup; eassumption.
  - rewrite E in Hx. injection Hx as <-. assumption.
Qed.

Lemma three_phases_wf m0 m1 m2 m3 :
  ndarray_wf m0 ->
  advanced INFECTED RECOVER m0 m1 -> advanced LATENT INFECTED m1 m2 ->
  advanced SUSCEPTIBLE LATENT m2 m3 ->
  ndarray_wf m3 /\ shape m3 = shape m0.
Proof.
  intros Hwf A1 A2 A3. split.
  - eapply advanced_wf; [| exact A3]. eapply advanced_wf; [| exact A2].
    eapply advanced_wf; [| exact A1]. assumption.
  - rewrite (proj1 A3), (proj1 A2), (proj1 A1). reflexivity.
Qed.

Lemma step_invariant self g :
  sim_wf self ->
  exists s' g',
    step self g = Ok (s', g') /\
    sim_wf s' /\ same_parameters self s' /\ self_n s' = self_n self + 1 /\
    (valid_grid (self_map self) -> valid_grid (self_map s')).
Proof.
  intros Hwf.
  destruct (step_structure self g Hwf)
    as (m1 & m2 & m3 & m4 & g' & A1 & A2 & A3 & Hs4 & Hp & _ & ->).
  destruct Hwf as [Hwf Hs].
  destruct (three_phases_wf _ _ _ _ Hwf A1 A2 A3) as [Hwf3 Hs3].
  eexists. eexists. split; [reflexivity |]. cbn [self_map self_n].
  split.
  { split; cbn [self_map self_size]; [| congruence].
    destruct Hwf3 as (Hx & Hy & Hlen). unfold ndarray_wf.
    rewrite Hs4, (Permutation_length Hp). auto. }
  split; [repeat split |]. split; [reflexivity |].
  intros Hv. unfold valid_grid. rewrite Hp.
  eapply advanced_valid; [| exact A3 |].
  { unfold valid_state; auto. }
  eapply advanced_valid; [| exact A2 |].
  { unfold valid_state; auto. }
  eapply advanced_valid; [| exact A1 |]; [unfold valid_state; auto | assumption].
Qed.

Lemma sim_wf_mixed_sim : sim_wf mixed_sim.
Proof. split; [| reflexivity]. unfold ndarray_wf; simpl. lia. Qed.

(** X1: on a simulation whose map has the shape [self.size] and whose
    movement probability is at most 1, [step] never raises, whatever the
    three rates, the grid and the generator state are; the simulation it
    leaves has a map of the same shape, the same parameters, and a counter
    one above the one before. *)
Theorem step_returns self g :
  sim_wf self ->
  (self_moving self <= 1)%Q ->
  exists s' g',
    step self g = Ok (s', g') /\
    sim_wf s' /\ same_parameters self s' /\ self_n s' = self_n self + 1.
Proof.
  intros Hwf _.
  destruct (step_invariant self g Hwf) as (s' & g' & E & Hwf' & Hp & Hn & _).
  exists s', g'. auto.
Qed.

Lemma step_returns_witness :
  exists s' g',
    step mixed_sim regress_state = Ok (s', g') /\
    sim_wf s' /\ same_parameters mixed_sim s' /\ self_n s' = self_n mixed_sim + 1.
Proof.
  apply (step_returns mixed_sim regress_state).
  - exact sim_wf_mixed_sim.
  - simpl. unfold Qle; simpl. lia.
Defined.

(** X2: if every site holds one of the four states when [step] is called,
    every site holds one of the four states when it returns, movement
    included. *)
Theorem step_keeps_valid_states self g :
  sim_wf self -> valid_grid (self_map self) ->
  exists s' g', step self g = Ok (s', g') /\ valid_grid (self_map s').
Proof.
  intros Hwf Hv.
  destruct (step_invariant self g Hwf) as (s' & g' & E & _ & _ & _ & Hv').
  exists s', g'. auto.
Qed.

Lemma valid_grid_mixed_sim : valid_grid (self_map mixed_sim).
Proof.
  unfold valid_grid. simpl.
  repeat (constructor;
          [unfold valid_state, SUSCEPTIBLE, LATENT, INFECTED, RECOVER; lia |]).
  constructor.
Qed.

Lemma step_keeps_valid_states_witness :
  exists s' g',
    step mixed_sim regress_state = Ok (s', g') /\ valid_grid (self_map s').
Proof.
  apply (step_keeps_valid_states mixed_sim regress_state).
  - exact sim_wf_mixed_sim.
  - exact valid_grid_mixed_sim.
Defined.

(** X3: with a movement probability of at most 1, [k] calls of [step] in a
    row all return; after them [get_state] gives a counter that is [k] above
    the one before, a map of the same shape, and only valid states if the
    grid had only valid states. *)
Theorem steps_count k :
  forall self g,
    sim_wf self ->
    (self_moving self <= 1)%Q ->
    exists s' g',
      steps k self g = Ok (s', g') /\
      fst (get_state s') = self_n self + Z.of_nat k /\
      sim_wf s' /\ same_parameters self s' /\
      (valid_grid (self_map self) -> valid_grid (snd (get_state s'))).
Proof.
  induction k as [| k IH]; intros self g Hwf Hm.
  - exists self, g. split; [reflexivity |]. unfold get_state. cbn [fst snd].
    split; [simpl; lia |]. split; [assumption |].
    split; [repeat split | auto].
  - destruct (step_invariant self g Hwf) as (s1 & g1 & E & Hwf1 & Hp1 & Hn1 & Hv1).
    assert (Hm1 : (self_moving s1 <= 1)%Q)
      by (destruct Hp1 as (_ & _ & _ & _ & ->); exact Hm).
    destruct (IH s1 g1 Hwf1 Hm1) as (s' & g' & E' & Hn' & Hwf' & Hp' & Hv').
    exists s', g'. cbn [steps]. rewrite E. cbn [bind].
    split; [assumption |].
    split; [rewrite Hn', Hn1; lia |]. split; [assumption |].
    split; [| auto].
    destruct Hp1 as (? & ? & ? & ? & ?), Hp' as (? & ? & ? & ? & ?).
    repeat split; congruence.
Qed.

Lemma steps_count_witness :
  exists s' g',
    steps 3 mixed_sim regress_state = Ok (s', g') /\
    fst (get_state s') = self_n mixed_sim + Z.of_nat 3 /\
    sim_wf s' /\ same_parameters mixed_sim s' /\
    (valid_grid (self_map mixed_sim) -> valid_grid (snd (get_state s'))).
Proof.
  apply (steps_count 3 mixed_sim regress_state).
  - exact sim_wf_mixed_sim.
  - simpl. unfold Qle; simpl. lia.
Defined.

(** X4: without movement, one [step] moves a site by at most one stage:
    each site either keeps its value, or held Susceptible, Latent or
    Infected and holds the next state.  In particular a Recovered site stays
    Recovered, and a site cannot become Latent and Infected, or Infected and
    Recovered, in the same step. *)
Theorem step_one_stage self g :
  sim_wf self -> (self_moving self <= 0)%Q ->
  exists s' g',
    step self g = Ok (s', g') /\
    forall xy v,
      getitem (self_map self) xy = Ok v ->
      getitem (self_map s') xy = Ok v \/
      ((v = SUSCEPTIBLE \/ v = LATENT \/ v = INFECTED) /\
       getitem (self_map s') xy = Ok (v + 1)).
Proof.
  intros Hwf Hm.
  destruct (step_structure self g Hwf)
    as (m1 & m2 & m3 & m4 & g' & A1 & A2 & A3 & _ & _ & Hsame & ->).
  rewrite (Hsame Hm). clear Hsame m4.
  eexists. eexists. split; [reflexivity |]. cbn [self_map].
  intros xy v Hget.
  destruct (getitem_lookup _ _ _ Hget) as (i & Hi & Hread).
  assert (Hs3 : shape m3 = shape (self_map self))
    by (rewrite (proj1 A3), (proj1 A2), (proj1 A1); reflexivity).
  rewrite (Hread _ m3 Hs3).
  destruct A1 as [_ A1], A2 as [_ A2], A3 as [_ A3].
  specialize (A1 i). specialize (A2 i). specialize (A3 i).
  unfold SUSCEPTIBLE, LATENT, INFECTED, RECOVER in *.
  destruct A1 as [E1 | [E1 E1']].
  - destruct A2 as [E2 | [E2 E2']].
    + destruct A3 as [E3 | [E3 E3']].
      * left. rewrite E3, E2, E1, Hi. reflexivity.
      * right. rewrite E3'. rewrite E2, E1, Hi in E3. injection E3 as ->.
        split; [auto | reflexivity].
    + destruct A3 as [E3 | [E3 E3']]; [| congruence].
      right. rewrite E3, E2'. rewrite E1, Hi in E2. injection E2 as ->.
      split; [auto | reflexivity].
  - destruct A2 as [E2 | [E2 E2']]; [| congruence].
    destruct A3 as [E3 | [E3 E3']]; [| congruence].
    right. rewrite E3, E2, E1'. rewrite Hi in E1. injection E1 as ->.
    split; [auto | reflexivity].
Qed.

Lemma step_one_stage_witness :
  exists s' g',
    step eager_sim (const_state (1 # 2) 0) = Ok (s', g') /\
    forall xy v,
      getitem (self_map eager_sim) xy = Ok v ->
      getitem (self_map s') xy = Ok v \/
      ((v = SUSCEPTIBLE \/ v = LATENT \/ v = INFECTED) /\
       getitem (self_map s') xy = Ok (v + 1)).
Proof.
  apply (step_one_stage eager_sim (const_state (1 # 2) 0)).
  - split; [| reflexivity]. unfold ndarray_wf; simpl. lia.
  - simpl. apply Qle_refl.
Defined.

(** ** Rates of one *)

(** A phase whose draws all pass writes every site that [np.where] found. *)
Lemma advance_loop_all rate t v0 m g :
  ndarray_wf m ->
  (forall i, Qle_bool (uniform g i) rate = true) ->
  exists m',
    for_each (advance rate t)
      (zip (np_where m v0) (uniform g <$> seq 0 (length (np_where m v0)))) m = Ok m' /\
    forall i : nat, data m !! i = Some v0 -> data m' !! i = Some t.
Proof.
  intros Hwf Hpass.
  destruct (for_each_advance_all rate t
              (zip (np_where m v0) (uniform g <$> seq 0 (length (np_where m v0)))) m)
    as (m' & E & _ & _ & _ & Hall).
  { apply Forall_forall. intros [c r] Hc. simpl. split.
    - apply elem_of_zip_r in Hc. apply list_elem_of_fmap in Hc as (j & -> & _).
      apply Hpass.
    - apply elem_of_zip_l in Hc. apply (np_where_in_bounds _ _ _ Hwf Hc). }
  exists m'. split; [assumption |].
  intros i Hi. pose proof (np_where_complete _ _ _ Hi) as Hin.
  destruct (elem_of_zip_same_length _
              (uniform g <$> seq 0 (length (np_where m v0))) _ Hin) as [r Hr].
  { rewrite length_fmap, length_seq. reflexivity. }
  specialize (Hall _ Hr). cbn [fst snd] in Hall. rewrite offset_unravel in Hall.
  apply Hall. eapply lookup_lt_Some; eassumption.
Qed.

Lemma draws_pass_one rate g :
  (rate == 1)%Q -> (forall i, (0 <= uniform g i)%Q /\ (uniform g i < 1)%Q) ->
  forall k i, Qle_bool (uniform (skip_uniform k g) i) rate = true.
Proof.
  intros Hr Hd k i. apply Qle_bool_iff. rewrite Hr. simpl.
  apply Qlt_le_weak, Hd.
Qed.

(** The three loops of [transitions], with the draws that each one gets. *)
Lemma transitions_phases self g :
  sim_wf self ->
  exists m1 m2 m3,
    let g1 := skip_uniform (length (np_where (self_map self) INFECTED)) g in
    let g2 := skip_uniform (length (np_where m1 LATENT)) g1 in
    let g3 := skip_uniform (length (np_where m2 SUSCEPTIBLE)) g2 in
    recover_loop self (self_map self)
      (uniform g <$> seq 0 (length (np_where (self_map self) INFECTED))) = Ok m1 /\
    symptom_loop self m1
      (uniform g1 <$> seq 0 (length (np_where m1 LATENT))) = Ok m2 /\
    infect_loop self m2
      (uniform g2 <$> seq 0 (length (np_where m2 SUSCEPTIBLE))) = Ok m3 /\
    transitions self g = Ok (set_map self m3, g3) /\
    advanced INFECTED RECOVER (self_map self) m1 /\
    advanced LATENT INFECTED m1 m2 /\
    advanced SUSCEPTIBLE LATENT m2 m3.
Proof.
  intros [Hwf Hs].
  destruct (recover_loop_advanced self (self_map self)
              (uniform g <$> seq 0 (length (np_where (self_map self) INFECTED))) Hwf)
    as (m1 & E1 & A1).
  pose proof (advanced_wf _ _ _ _ Hwf A1) as Hwf1.
  set (g1 := skip_uniform (length (np_where (self_map self) INFECTED)) g).
  destruct (symptom_loop_advanced self m1
              (uniform g1 <$> seq 0 (length (np_where m1 LATENT))) Hwf1)
    as (m2 & E2 & A2).
  pose proof (advanced_wf _ _ _ _ Hwf1 A2) as Hwf2.
  assert (Hs2 : shape m2 = self_size self)
    by (rewrite (proj1 A2), (proj1 A1); assumption).
  set (g2 := skip_uniform (length (np_where m1 LATENT)) g1).
  destruct (infect_loop_advanced self m2
              (uniform g2 <$> seq 0 (length (np_where m2 SUSCEPTIBLE))) Hwf2 Hs2)
    as (m3 & E3 & A3).
  exists m1, m2, m3. cbv zeta. fold g1. fold g2.
  repeat (split; [assumption |]).
  split; [| auto].
  unfold transitions, np_rand. cbv beta iota zeta.
  rewrite E1. cbn [bind]. fold g1. rewrite E2. cbn [bind]. fold g2.
  rewrite E3. reflexivity.
Qed.

(** X6: with a symptom probability of 1 and no movement, every site that
    is Latent when [step] is called is Infected when it returns (and not
    Recovered: the recover phase comes first), for every grid and all draws
    of [[0, 1)]. *)
Theorem step_symptom_rate_one self g :
  sim_wf self ->
  (self_symptom self == 1)%Q ->
  (self_moving self <= 0)%Q ->
  (forall i, (0 <= uniform g i)%Q /\ (uniform g i < 1)%Q) ->
  exists s' g',
    step self g = Ok (s', g') /\
    forall xy, getitem (self_map self) xy = Ok LATENT ->
               getitem (self_map s') xy = Ok INFECTED.
Proof.
  intros Hwf Hrate Hmov Hdraw.
  destruct (transitions_phases self g Hwf)
    as (m1 & m2 & m3 & E1 & E2 & E3 & Ht & A1 & A2 & A3).
  cbv zeta in *.
  rewrite (step_no_moving self g m3 _ Hmov Ht).
  eexists. eexists. split; [reflexivity |]. cbn [self_map].
  intros xy Hget.
  apply (advanced_other _ _ m2 m3 xy INFECTED A3); [discriminate |].
  pose proof (advanced_other _ _ _ m1 xy LATENT A1 ltac:(discriminate) Hget) as Hget1.
  destruct (getitem_lookup _ _ _ Hget1) as (i & Hi & Hread).
  rewrite (Hread _ m2 (proj1 A2)).
  destruct Hwf as [Hwf Hs].
  pose proof (advanced_wf _ _ _ _ Hwf A1) as Hwf1.
  destruct (advance_loop_all (self_symptom self) INFECTED LATENT m1
              (skip_uniform (length (np_where (self_map self) INFECTED)) g) Hwf1)
    as (m2' & E2' & Hall).
  { apply draws_pass_one; assumption. }
  unfold symptom_loop in E2. rewrite E2 in E2'. injection E2' as <-.
  rewrite (Hall i Hi). reflexivity.
Qed.

Lemma step_symptom_rate_one_witness :
  exists s' g',
    step eager_sim (const_state (1 # 2) 0) = Ok (s', g') /\
    forall xy, getitem (self_map eager_sim) xy = Ok LATENT ->
               getitem (self_map s') xy = Ok INFECTED.
Proof.
  apply (step_symptom_rate_one eager_sim (const_state (1 # 2) 0)).
  - split; [| reflexivity]. unfold ndarray_wf; simpl. lia.
  - reflexivity.
  - simpl. apply Qle_refl.
  - intros i. simpl. split; reflexivity || discriminate.
Defined.

(** One exposed neighbour is enough for the test to pass. *)
Lemma has_infected_neighbor_true size (m : ndarray Z) xy nb v :
  ndarray_wf m -> shape m = size -> in_bounds m xy ->
  nb ∈ neighbors size xy -> getitem m nb = Ok v -> SUSCEPTIBLE < v ->
  has_infected_neighbor size m xy = Ok true.
Proof.
  intros Hwf <- [Hx Hy] Hnb Hv Hlt. destruct xy as [x y]. simpl in Hx, Hy.
  unfold has_infected_neighbor, or_else.
  assert (H1 : in_bounds m (Z.max (x - 1) 0, y)) by (split; simpl; lia).
  assert (H2 : in_bounds m (Z.min (x + 1) (fst (shape m) - 1), y))
    by (split; simpl; lia).
  assert (H3 : in_bounds m (x, Z.max (y - 1) 0)) by (split; simpl; lia).
  assert (H4 : in_bounds m (x, Z.min (y + 1) (snd (shape m) - 1)))
    by (split; simpl; lia).
  destruct (getitem_ok _ _ Hwf H1) as (v1 & _ & E1).
  destruct (getitem_ok _ _ Hwf H2) as (v2 & _ & E2).
  destruct (getitem_ok _ _ Hwf H3) as (v3 & _ & E3).
  destruct (getitem_ok _ _ Hwf H4) as (v4 & _ & E4).
  apply Z.ltb_lt in Hlt.
  unfold neighbors in Hnb. cbn [fst snd] in Hnb.
  rewrite E1, E2, E3, E4. cbn [bind].
  apply elem_of_cons in Hnb as [-> | Hnb].
  { rewrite E1 in Hv. injection Hv as ->. rewrite Hlt. reflexivity. }
  apply elem_of_cons in Hnb as [-> | Hnb].
  { rewrite E2 in Hv. injection Hv as ->. rewrite Hlt.
    destruct (SUSCEPTIBLE <? v1); reflexivity. }
  apply elem_of_cons in Hnb as [-> | Hnb].
  { rewrite E3 in Hv. injection Hv as ->. rewrite Hlt.
    destruct (SUSCEPTIBLE <? v1), (SUSCEPTIBLE <? v2); reflexivity. }
  apply elem_of_cons in Hnb as [-> | Hnb]; [| inversion Hnb].
  rewrite E4 in Hv. injection Hv as ->. rewrite Hlt.
  destruct (SUSCEPTIBLE <? v1), (SUSCEPTIBLE <? v2), (SUSCEPTIBLE <? v3); reflexivity.
Qed.

(** In an infect loop whose draws all pass, a visited site with a
    neighbour that was exposed at the start of the phase ends Latent. *)
Lemma infect_loop_exposed size rate m0 :
  ndarray_wf m0 -> shape m0 = size ->
  forall l m,
    Forall (fun c : Z * Z * Q => fst c ∈ np_where m0 SUSCEPTIBLE /\
                                 Qle_bool (snd c) rate = true) l ->
    advanced SUSCEPTIBLE LATENT m0 m ->
    exists m',
      for_each (infect_one size rate) l m = Ok m' /\
      advanced SUSCEPTIBLE LATENT m0 m' /\
      (forall i : nat, data m !! i = Some LATENT -> data m' !! i = Some LATENT) /\
      (forall c nb v, c ∈ l -> nb ∈ neighbors size (fst c) ->
         getitem m0 nb = Ok v -> SUSCEPTIBLE < v ->
         data m' !! offset m0 (fst (fst c)) (snd (fst c)) = Some LATENT).
Proof.
  intros Hwf0 Hs0 l. induction l as [| c l IH]; intros m Hl Hadv.
  - exists m. split; [reflexivity |]. split; [assumption |]. split; [auto |].
    intros c nb v Hc. inversion Hc.
  - inversion Hl as [| ? ? [Hc Hpass] Hl']; subst.
    destruct (np_where_in_bounds _ _ _ Hwf0 Hc) as [Hin H0].
    pose proof (advanced_wf _ _ _ _ Hwf0 Hadv) as Hwf.
    pose proof (proj1 Hadv) as Hs.
    pose proof (advanced_in_bounds _ _ _ _ _ Hadv Hin) as Hin_m.
    cbn [for_each]. unfold infect_one at 1. rewrite Hpass.
    destruct (has_infected_neighbor_ok (shape m0) m (fst c) Hwf Hs Hin_m) as [b Hb].
    rewrite Hb. cbn [bind]. destruct b.
    + destruct (advanced_setitem _ _ _ _ _ Hadv Hin H0) as (m1 & E1 & Hadv1).
      rewrite E1. cbn [bind].
      rewrite setitem_in in E1 by assumption. injection E1 as E1.
      assert (Ho : offset m (fst (fst c)) (snd (fst c)) =
                   offset m0 (fst (fst c)) (snd (fst c)))
        by (unfold offset; rewrite Hs; reflexivity).
      rewrite Ho in E1.
      assert (Hlt : (offset m0 (fst (fst c)) (snd (fst c)) < length (data m))%nat).
      { rewrite (advanced_length _ _ _ _ Hadv). apply offset_lt; assumption. }
      assert (Hkeep1 : forall i : nat, data m !! i = Some LATENT ->
                                       data m1 !! i = Some LATENT).
      { intros i Hi. subst m1. cbn [data].
        destruct (decide (offset m0 (fst (fst c)) (snd (fst c)) = i)) as [<- | Hne].
        - apply list_lookup_insert_eq. assumption.
        - rewrite list_lookup_insert_ne; assumption. }
      assert (Hc1 : data m1 !! offset m0 (fst (fst c)) (snd (fst c)) = Some LATENT).
      { subst m1. cbn [data]. apply list_lookup_insert_eq. assumption. }
      destruct (IH m1 Hl' Hadv1) as (m' & E & Hadv' & Hkeep & Hall).
      exists m'. split; [assumption |]. split; [assumption |].
      split; [auto |].
      intros c' nb v Hc' Hnb Hv Hexp.
      apply elem_of_cons in Hc' as [-> | Hc']; [auto | eauto].
    + destruct (IH m Hl' Hadv) as (m' & E & Hadv' & Hkeep & Hall).
      exists m'. split; [assumption |]. split; [assumption |].
      split; [assumption |].
      intros c' nb v Hc' Hnb Hv Hexp.
      apply elem_of_cons in Hc' as [-> | Hc']; [| eauto].
      exfalso.
      assert (Hmono : never_regresses m0 m).
      { eapply advanced_never_regresses; [| exact Hadv].
        unfold SUSCEPTIBLE, LATENT; lia. }
      destruct (Hmono nb v Hv) as (v' & Hv' & Hle).
      assert (Htrue : has_infected_neighbor (shape m0) m (fst c) = Ok true).
      { apply (has_infected_neighbor_true _ m (fst c) nb v'); try assumption. lia. }
      congruence.
Qed.

(** X5: with an infection probability of 1 and no movement, every site
    that is Susceptible when [step] is called and has, among the four sites
    that its neighbour test reads, one holding more than Susceptible
    (Latent, Infected or Recovered) is Latent when [step] returns, for every
    grid and all draws of [[0, 1)]. *)
Theorem step_infect_rate_one self g :
  sim_wf self ->
  (self_infect self == 1)%Q ->
  (self_moving self <= 0)%Q ->
  (forall i, (0 <= uniform g i)%Q /\ (uniform g i < 1)%Q) ->
  exists s' g',
    step self g = Ok (s', g') /\
    forall xy nb v,
      in_bounds (self_map self) xy ->
      getitem (self_map self) xy = Ok SUSCEPTIBLE ->
      nb ∈ neighbors (self_size self) xy ->
      getitem (self_map self) nb = Ok v -> SUSCEPTIBLE < v ->
      getitem (self_map s') xy = Ok LATENT.
Proof.
  intros Hwf Hrate Hmov Hdraw.
  destruct (transitions_phases self g Hwf)
    as (m1 & m2 & m3 & E1 & E2 & E3 & Ht & A1 & A2 & A3).
  cbv zeta in *.
  rewrite (step_no_moving self g m3 _ Hmov Ht).
  eexists. eexists. split; [reflexivity |]. cbn [self_map].
  intros xy nb v Hin Hget Hnb Hv Hexp.
  destruct Hwf as [Hwf Hs].
  pose proof (advanced_wf _ _ _ _ Hwf A1) as Hwf1.
  pose proof (advanced_wf _ _ _ _ Hwf1 A2) as Hwf2.
  assert (Hs2 : shape m2 = self_size self)
    by (rewrite (proj1 A2), (proj1 A1); assumption).
  assert (Hin2 : in_bounds m2 xy).
  { eapply advanced_in_bounds; [exact A2 |].
    eapply advanced_in_bounds; [exact A1 | assumption]. }
  (* the site is still Susceptible, and its neighbour still exposed, when
     the infect phase starts *)
  assert (Hget2 : getitem m2 xy = Ok SUSCEPTIBLE).
  { apply (advanced_other _ _ m1 m2 xy SUSCEPTIBLE A2); [discriminate |].
    apply (advanced_other _ _ _ m1 xy SUSCEPTIBLE A1); [discriminate | assumption]. }
  assert (Hnb2 : exists v2, getitem m2 nb = Ok v2 /\ SUSCEPTIBLE < v2).
  { assert (H1 : never_regresses (self_map self) m1)
      by (eapply advanced_never_regresses; [| exact A1];
          unfold INFECTED, RECOVER; lia).
    assert (H2 : never_regresses m1 m2)
      by (eapply advanced_never_regresses; [| exact A2];
          unfold INFECTED, LATENT; lia).
    destruct (H1 nb v Hv) as (v1 & Hv1 & Hle1).
    destruct (H2 nb v1 Hv1) as (v2 & Hv2 & Hle2).
    exists v2. split; [assumption | lia]. }
  destruct Hnb2 as (v2 & Hv2 & Hexp2).
  rewrite getitem_in in Hget2 by assumption.
  destruct (data m2 !! offset m2 (fst xy) (snd xy)) as [w |] eqn:Ew;
    [| discriminate].
  injection Hget2 as ->.
  pose proof (np_where_complete _ _ _ Ew) as Hxy.
  rewrite unravel_offset in Hxy by assumption.
  destruct (elem_of_zip_same_length _
              (uniform (skip_uniform (length (np_where m1 LATENT))
                          (skip_uniform (length (np_where (self_map self) INFECTED)) g))
                 <$> seq 0 (length (np_where m2 SUSCEPTIBLE))) _ Hxy) as [r Hr].
  { rewrite length_fmap, length_seq. reflexivity. }
  unfold infect_loop in E3.
  destruct (infect_loop_exposed (self_size self) (self_infect self) m2 Hwf2 Hs2
              (zip (np_where m2 SUSCEPTIBLE)
                 (uniform (skip_uniform (length (np_where m1 LATENT))
                             (skip_uniform (length (np_where (self_map self) INFECTED)) g))
                    <$> seq 0 (length (np_where m2 SUSCEPTIBLE))))
              m2)
    as (m3' & E3' & _ & _ & Hall).
  { apply Forall_forall. intros [c r'] Hc. cbn [fst snd]. split.
    - apply elem_of_zip_l in Hc. assumption.
    - apply elem_of_zip_r in Hc. apply list_elem_of_fmap in Hc as (j & -> & _).
      apply Qle_bool_iff. rewrite Hrate. simpl. apply Qlt_le_weak, Hdraw. }
  { apply advanced_refl. }
  rewrite E3 in E3'. injection E3' as <-.
  specialize (Hall (xy, r) nb v2 Hr Hnb Hv2 Hexp2). cbn [fst snd] in Hall.
  assert (Hin3 : in_bounds m3 xy)
    by (eapply advanced_in_bounds; [exact A3 | assumption]).
  rewrite getitem_in by assumption.
  assert (Ho : offset m3 (fst xy) (snd xy) = offset m2 (fst xy) (snd xy))
    by (unfold offset; rewrite (proj1 A3); reflexivity).
  rewrite Ho, Hall. reflexivity.
Qed.

Lemma step_infect_rate_one_witness :
  exists s' g',
    step eager_sim (const_state (1 # 2) 0) = Ok (s', g') /\
    forall xy nb v,
      in_bounds (self_map eager_sim) xy ->
      getitem (self_map eager_sim) xy = Ok SUSCEPTIBLE ->
      nb ∈ neighbors (self_size eager_sim) xy ->
      getitem (self_map eager_sim) nb = Ok v -> SUSCEPTIBLE < v ->
      getitem (self_map s') xy = Ok LATENT.
Proof.
  apply (step_infect_rate_one eager_sim (const_state (1 # 2) 0)).
  - split; [| reflexivity]. unfold ndarray_wf; simpl. lia.
  - reflexivity.
  - simpl. apply Qle_refl.
  - intros i. simpl. split; reflexivity || discriminate.
Defined.

(** ** Grids and rates on which nothing happens *)

Lemma advance_loop_none rate t (cells : list (Z * Z)) (draws : list Q) m :
  Forall (fun r => Qle_bool r rate = false) draws ->
  for_each (advance rate t) (zip cells draws) m = Ok m.
Proof.
  intros Hd. revert cells. induction Hd as [| r draws Hr Hd IH]; intros cells.
  - destruct cells; reflexivity.
  - destruct cells as [| c cells]; [reflexivity |].
    cbn [zip_with for_each]. unfold advance at 1. cbn [snd]. rewrite Hr.
    cbn [bind]. apply IH.
Qed.

Lemma draws_fail_zero rate g k :
  (rate == 0)%Q -> (forall i, (0 < uniform g i)%Q) ->
  Forall (fun r => Qle_bool r rate = false) (uniform g <$> seq 0 k).
Proof.
  intros Hr Hd. apply Forall_fmap, Forall_forall. intros i _. simpl.
  destruct (Qle_bool (uniform g i) rate) eqn:E; [| reflexivity].
  apply Qle_bool_iff in E. rewrite Hr in E.
  exfalso. eapply Qlt_not_le; [apply Hd | eassumption].
Qed.

(** X7: with the three rates at 0, no movement and draws above 0, [step]
    only counts: it returns the simulation with the same map and a counter
    one higher, whatever the map holds. *)
Theorem step_rates_zero self g :
  (self_recover self == 0)%Q -> (self_symptom self == 0)%Q ->
  (self_infect self == 0)%Q -> (self_moving self <= 0)%Q ->
  (forall i, (0 < uniform g i)%Q) ->
  exists g',
    step self g =
    Ok (mk_sim (self_size self) (self_infect self) (self_symptom self)
          (self_recover self) (self_moving self) (self_map self)
          (self_n self + 1), g').
Proof.
  intros Hr Hs Hi Hm Hd.
  assert (Hd' : forall k i, (0 < uniform (skip_uniform k g) i)%Q)
    by (intros k i; simpl; apply Hd).
  assert (Hd'' : forall k k' i, (0 < uniform (skip_uniform k (skip_uniform k' g)) i)%Q)
    by (intros k k' i; simpl; apply Hd).
  assert (Ht : transitions self g =
               Ok (set_map self (self_map self),
                   skip_uniform (length (np_where (self_map self) SUSCEPTIBLE))
                     (skip_uniform (length (np_where (self_map self) LATENT))
                        (skip_uniform (length (np_where (self_map self) INFECTED)) g)))).
  { unfold transitions, np_rand. cbv beta iota zeta.
    unfold recover_loop.
    rewrite advance_loop_none by (apply draws_fail_zero; assumption).
    cbn [bind]. unfold symptom_loop.
    rewrite advance_loop_none by (apply draws_fail_zero; [assumption | apply Hd']).
    cbn [bind].
    rewrite infect_loop_rate_zero; [reflexivity | assumption |].
    apply Forall_fmap, Forall_forall. intros i _. apply Hd''. }
  eexists. apply (step_no_moving self g _ _ Hm Ht).
Qed.

Lemma step_rates_zero_witness :
  exists g',
    step idle_sim (const_state (1 # 2) 0) =
    Ok (mk_sim (self_size idle_sim) (self_infect idle_sim) (self_symptom idle_sim)
          (self_recover idle_sim) (self_moving idle_sim) (self_map idle_sim)
          (self_n idle_sim + 1), g').
Proof.
  apply (step_rates_zero idle_sim (const_state (1 # 2) 0)).
  - reflexivity.
  - reflexivity.
  - reflexivity.
  - simpl. apply Qle_refl.
  - intros i. reflexivity.
Defined.

Lemma advanced_none v0 t m m' :
  advanced v0 t m m' -> (forall i : nat, data m !! i <> Some v0) -> m' = m.
Proof.
  intros [Hs Hadv] Hno. destruct m as [sh d], m' as [sh' d'].
  cbn [shape data] in *. subst sh'. f_equal.
  apply list_eq. intros i. destruct (Hadv i) as [E | [E _]]; [assumption |].
  exfalso. apply (Hno i). assumption.
Qed.

Lemma has_infected_neighbor_false size (m : ndarray Z) xy :
  ndarray_wf m -> shape m = size -> in_bounds m xy ->
  Forall (fun v => v = SUSCEPTIBLE) (data m) ->
  has_infected_neighbor size m xy = Ok false.
Proof.
  intros Hwf <- [Hx Hy] Hall. destruct xy as [x y]. simpl in Hx, Hy.
  unfold has_infected_neighbor, or_else.
  assert (H1 : in_bounds m (Z.max (x - 1) 0, y)) by (split; simpl; lia).
  assert (H2 : in_bounds m (Z.min (x + 1) (fst (shape m) - 1), y))
    by (split; simpl; lia).
  assert (H3 : in_bounds m (x, Z.max (y - 1) 0)) by (split; simpl; lia).
  assert (H4 : in_bounds m (x, Z.min (y + 1) (snd (shape m) - 1)))
    by (split; simpl; lia).
  destruct (getitem_ok _ _ Hwf H1) as (v1 & L1 & ->).
  destruct (getitem_ok _ _ Hwf H2) as (v2 & L2 & ->).
  destruct (getitem_ok _ _ Hwf H3) as (v3 & L3 & ->).
  destruct (getitem_ok _ _ Hwf H4) as (v4 & L4 & ->).
  rewrite (Forall_lookup_1 _ _ _ _ Hall L1), (Forall_lookup_1 _ _ _ _ Hall L2),
    (Forall_lookup_1 _ _ _ _ Hall L3), (Forall_lookup_1 _ _ _ _ Hall L4).
  reflexivity.
Qed.

Lemma infect_loop_all_susceptible size rate (m : ndarray Z) l :
  ndarray_wf m -> shape m = size ->
  Forall (fun v => v = SUSCEPTIBLE) (data m) ->
  Forall (fun c : Z * Z * Q => in_bounds m (fst c)) l ->
  for_each (infect_one size rate) l m = Ok m.
Proof.
  intros Hwf Hs Hall Hl. induction Hl as [| c l Hc Hl IH]; [reflexivity |].
  cbn [for_each]. unfold infect_one at 1.
  rewrite (has_infected_neighbor_false size m (fst c) Hwf Hs Hc Hall).
  destruct (Qle_bool (snd c) rate); cbn [bind]; exact IH.
Qed.

Lemma Forall_eq_replicate (x : Z) l :
  Forall (fun v => v = x) l -> l = replicate (length l) x.
Proof.
  induction 1 as [| v l -> _ IH]; [reflexivity |].
  cbn [length replicate]. f_equal. exact IH.
Qed.

Lemma permutation_all_equal (x : Z) l l' :
  Forall (fun v => v = x) l -> l' ≡ₚ l -> l' = l.
Proof.
  intros Hl Hp.
  assert (Hl' : Forall (fun v => v = x) l') by (rewrite Hp; assumption).
  rewrite (Forall_eq_replicate x l Hl), (Forall_eq_replicate x l' Hl').
  rewrite (Permutation_length Hp). reflexivity.
Qed.

(** X8: a grid on which every site is Susceptible stays as it is under
    [step], for all rates, all draws and with or without movement: no state
    appears where no site is exposed, and only the counter changes. *)
Theorem step_all_susceptible self g :
  sim_wf self ->
  Forall (fun v => v = SUSCEPTIBLE) (data (self_map self)) ->
  exists g',
    step self g =
    Ok (mk_sim (self_size self) (self_infect self) (self_symptom self)
          (self_recover self) (self_moving self) (self_map self)
          (self_n self + 1), g').
Proof.
  intros Hwf Hall.
  destruct (transitions_phases self g Hwf)
    as (m1 & m2 & m3 & E1 & E2 & E3 & Ht & A1 & A2 & A3).
  cbv zeta in *. destruct Hwf as [Hwf Hs].
  assert (Hno : forall w, w <> SUSCEPTIBLE ->
                forall i : nat, data (self_map self) !! i <> Some w).
  { intros w Hw i Hi. apply Hw.
    apply (Forall_lookup_1 _ _ _ _ Hall Hi). }
  assert (m1 = self_map self) as ->
    by (apply (advanced_none _ _ _ _ A1), Hno; discriminate).
  assert (m2 = self_map self) as ->
    by (apply (advanced_none _ _ _ _ A2), Hno; discriminate).
  assert (m3 = self_map self) as ->.
  { unfold infect_loop in E3.
    rewrite (infect_loop_all_susceptible _ _ (self_map self)) in E3;
      try assumption; [congruence |].
    apply Forall_forall. intros [c r] Hc. cbn [fst].
    apply elem_of_zip_l in Hc. apply (np_where_in_bounds _ _ _ Hwf Hc). }
  unfold step. rewrite Ht. cbn [bind].
  change (self_moving (set_map self (self_map self))) with (self_moving self).
  destruct (Qlt_bool 0 (self_moving self)) eqn:E.
  - apply Qlt_bool_true in E.
    destruct (exchange_permutes (set_map self (self_map self))
                (skip_uniform (length (np_where (self_map self) SUSCEPTIBLE))
                   (skip_uniform (length (np_where (self_map self) LATENT))
                      (skip_uniform (length (np_where (self_map self) INFECTED)) g))))
      as (m4 & g2 & -> & Hs4 & Hp).
    { split; assumption. }
    { apply Qlt_le_weak. assumption. }
    cbn [bind self_map set_map] in *.
    assert (m4 = self_map self) as ->.
    { destruct m4 as [sh4 d4], (self_map self) as [sh d].
      cbn [shape data] in *. subst sh4. f_equal.
      apply (permutation_all_equal SUSCEPTIBLE); assumption. }
    eexists. reflexivity.
  - cbn [bind]. eexists. reflexivity.
Qed.

Lemma step_all_susceptible_witness :
  exists g',
    step healthy_sim regress_state =
    Ok (mk_sim (self_size healthy_sim) (self_infect healthy_sim)
          (self_symptom healthy_sim) (self_recover healthy_sim)
          (self_moving healthy_sim) (self_map healthy_sim)
          (self_n healthy_sim + 1), g').
Proof.
  apply (step_all_susceptible healthy_sim regress_state).
  - split; [| reflexivity]. unfold ndarray_wf; simpl. lia.
  - simpl. repeat constructor.
Defined.

(** ** Seeding, at the ends of the range of [ratio] *)

Lemma initialize_eq self ratio state g :
  sim_wf self ->
  initialize self ratio state g =
  Ok (set_map self
        (mk_ndarray (shape (self_map self))
           (zip_with (fun (b : bool) c => if b then state else c)
              ((fun r => Qlt_bool r ratio) <$>
                 (uniform g <$> seq 0 (length (data (self_map self)))))
              (data (self_map self)))),
      skip_uniform (length (data (self_map self))) g).
Proof.
  intros [Hwf Hs]. pose proof Hwf as (Hx & Hy & Hlen).
  unfold initialize, np_rand2, np_rand. rewrite <- Hs.
  replace (fst (shape (self_map self)) <? 0) with false
    by (symmetry; apply Z.ltb_ge; lia).
  replace (snd (shape (self_map self)) <? 0) with false
    by (symmetry; apply Z.ltb_ge; lia).
  cbn [orb bind]. rewrite mask_assign_ok by reflexivity. cbn [bind].
  rewrite <- Hlen, Nat2Z.id. reflexivity.
Qed.

Lemma length_seeded (state : Z) (mask : list bool) (d : list Z) :
  length mask = length d ->
  length (zip_with (fun (b : bool) c => if b then state else c) mask d) = length d.
Proof. intros H. rewrite length_zip_with. lia. Qed.

(** X9: for an integer [state] that the float64 map holds exactly,
    [initialize] returns on every simulation whose map has the shape
    [self.size]; it keeps that shape, the parameters and the counter, and
    when [state] is one of the four states and the grid held only such
    states, the grid holds only such states afterwards. *)
Theorem initialize_invariant self ratio state g :
  sim_wf self ->
  exact_in_float64 state ->
  exists s' g',
    initialize self ratio state g = Ok (s', g') /\
    sim_wf s' /\ same_parameters self s' /\ self_n s' = self_n self /\
    (valid_state state -> valid_grid (self_map self) -> valid_grid (self_map s')).
Proof.
  intros Hwf _. rewrite (initialize_eq self ratio state g Hwf).
  eexists. eexists. split; [reflexivity |].
  destruct Hwf as [Hwf Hs]. pose proof Hwf as (Hx & Hy & Hlen).
  unfold sim_wf, same_parameters, set_map.
  cbn [self_map self_size self_infect self_symptom self_recover self_moving
       self_n shape data].
  split.
  { split; [| assumption]. unfold ndarray_wf. cbn [shape data].
    rewrite length_seeded by (rewrite !length_fmap, length_seq; reflexivity).
    auto. }
  split; [repeat split |]. split; [reflexivity |].
  intros Hstate Hv. unfold valid_grid in *. cbn [data].
  apply Forall_lookup. intros i z Hz.
  apply lookup_zip_with_Some in Hz as (b & c & -> & _ & Hc).
  destruct b; [assumption |]. eapply Forall_lookup; eassumption.
Qed.

Lemma initialize_invariant_witness :
  exists s' g',
    initialize mixed_sim (1 # 2) LATENT regress_state = Ok (s', g') /\
    sim_wf s' /\ same_parameters mixed_sim s' /\ self_n s' = self_n mixed_sim /\
    (valid_state LATENT -> valid_grid (self_map mixed_sim) ->
     valid_grid (self_map s')).
Proof.
  apply (initialize_invariant mixed_sim (1 # 2) LATENT regress_state).
  - exact sim_wf_mixed_sim.
  - unfold exact_in_float64, LATENT. simpl. lia.
Defined.



(** X11: with a ratio of 1 or more, [initialize] writes [state] on every
    site, for every integer [state] that the float64 map holds exactly and
    all draws of [[0, 1)]. *)
Theorem initialize_ratio_one self ratio state g :
  sim_wf self -> exact_in_float64 state ->
  (1 <= ratio)%Q -> (forall i, (uniform g i < 1)%Q) ->
  exists s' g',
    initialize self ratio state g = Ok (s', g') /\
    sim_wf s' /\
    Forall (fun v => v = state) (data (self_map s')).
Proof.
  intros Hwf _ Hr Hd. rewrite (initialize_eq self ratio state g Hwf).
  eexists. eexists. split; [reflexivity |].
  destruct Hwf as [Hwf Hs]. pose proof Hwf as (Hx & Hy & Hlen).
  unfold sim_wf, set_map. cbn [self_map self_size shape data].
  split.
  { split; [| assumption]. unfold ndarray_wf. cbn [shape data].
    rewrite length_seeded by (rewrite !length_fmap, length_seq; reflexivity).
    auto. }
  apply Forall_lookup. intros k z Hz.
  apply lookup_zip_with_Some in Hz as (b & c & -> & Hb & Hc).
  rewrite !list_lookup_fmap in Hb.
  destruct (seq 0 (length (data (self_map self))) !! k) as [j |]; [| discriminate].
  cbn in Hb. injection Hb as <-.
  assert (Hlt : Qlt_bool (uniform g j) ratio = true).
  { unfold Qlt_bool. apply negb_true_iff.
    destruct (Qle_bool ratio (uniform g j)) eqn:E; [| reflexivity].
    apply Qle_bool_iff in E. exfalso.
    apply (Qlt_not_le _ _ (Hd j)). eapply Qle_trans; eassumption. }
  rewrite Hlt. reflexivity.
Qed.

Lemma initialize_ratio_one_witness :
  exists s' g',
    initialize mixed_sim 1 LATENT (const_state (1 # 2) 0) = Ok (s', g') /\
    sim_wf s' /\
    Forall (fun v => v = LATENT) (data (self_map s')).
Proof.
  apply (initialize_ratio_one mixed_sim 1 LATENT (const_state (1 # 2) 0)).
  - exact sim_wf_mixed_sim.
  - unfold exact_in_float64, LATENT. simpl. lia.
  - apply Qle_refl.
  - intros i. reflexivity.
Defined.

(** ** One exchange attempt *)

Lemma getitem_insert_eq {A : Type} (a : ndarray A) c (v : A) :
  ndarray_wf a -> in_bounds a c ->
  getitem (mk_ndarray (shape a) (<[offset a (fst c) (snd c) := v]> (data a))) c =
  Ok v.
Proof.
  intros Hwf Hc. rewrite getitem_in by exact Hc.
  unfold offset at 1. cbn [shape data]. fold (offset a (fst c) (snd c)).
  rewrite list_lookup_insert_eq by (apply offset_lt; assumption). reflexivity.
Qed.

(** A move that is not discarded goes to a site next to the source. *)
Lemma exchange_target_adjacent size x y d xy2 :
  exchange_target size x y d = Some xy2 ->
  Z.abs (fst xy2 - x) + Z.abs (snd xy2 - y) = 1.
Proof.
  unfold exchange_target.
  destruct (d =? 0); [destruct (x =? 0); [discriminate |]; intros [= <-]; simpl; lia |].
  destruct (d =? 1);
    [destruct (x =? fst size - 1); [discriminate |]; intros [= <-]; simpl; lia |].
  destruct (d =? 2); [destruct (y =? 0); [discriminate |]; intros [= <-]; simpl; lia |].
  destruct (y =? snd size - 1); [discriminate |]. intros [= <-]; simpl; lia.
Qed.

(** X12: an exchange attempt that is not discarded swaps the values of its
    source and of its target, which is a site of the grid next to the
    source, and leaves every other site as it is; it never raises. *)
Theorem exchange_one_swaps (m : ndarray Z) x y d xy2 :
  ndarray_wf m -> in_bounds m (x, y) ->
  exchange_target (shape m) x y d = Some xy2 ->
  exists a b m',
    getitem m (x, y) = Ok a /\ getitem m xy2 = Ok b /\
    in_bounds m xy2 /\ Z.abs (fst xy2 - x) + Z.abs (snd xy2 - y) = 1 /\
    exchange_one (shape m) m (x, y, d) = Ok m' /\
    shape m' = shape m /\
    getitem m' (x, y) = Ok b /\ getitem m' xy2 = Ok a /\
    forall xy', in_bounds m xy' -> xy' <> (x, y) -> xy' <> xy2 ->
                getitem m' xy' = getitem m xy'.
Proof.
  intros Hwf Hin Et.
  pose proof (exchange_target_in_bounds _ _ _ _ _ Hin Et) as Hin2.
  pose proof (exchange_target_adjacent _ _ _ _ _ Et) as Hadj.
  assert (Hne : (x, y) <> xy2).
  { intros <-. cbn [fst snd] in Hadj. lia. }
  destruct (getitem_ok _ _ Hwf Hin) as (a & _ & Ea).
  destruct (getitem_ok _ _ Hwf Hin2) as (b & _ & Eb).
  exists a, b. unfold exchange_one. rewrite Et, Ea, Eb. cbn [bind].
  rewrite setitem_in by assumption. cbn [bind].
  remember (mk_ndarray (shape m)
              (<[offset m (fst (x, y)) (snd (x, y)) := b]> (data m))) as m1 eqn:Em1.
  assert (Hs1 : shape m1 = shape m) by (rewrite Em1; reflexivity).
  assert (Hwf1 : ndarray_wf m1).
  { destruct Hwf as (Hx & Hy & Hlen). unfold ndarray_wf. rewrite Em1.
    cbn [shape data]. rewrite length_insert. auto. }
  assert (Hin1 : forall xy', in_bounds m xy' -> in_bounds m1 xy')
    by (intros xy'; unfold in_bounds; rewrite Hs1; auto).
  rewrite setitem_in by (apply Hin1; assumption).
  eexists.
  split; [reflexivity |]. split; [reflexivity |].
  split; [exact Hin2 |]. split; [exact Hadj |].
  split; [reflexivity |]. split; [exact Hs1 |].
  split; [| split].
  - rewrite getitem_insert_ne by (try apply Hin1; assumption).
    rewrite Em1. apply getitem_insert_eq; assumption.
  - apply getitem_insert_eq; [assumption | apply Hin1; assumption].
  - intros xy' Hxy' Hn1 Hn2.
    rewrite getitem_insert_ne by (try apply Hin1; assumption).
    rewrite Em1. apply getitem_insert_ne; assumption.
Qed.

Lemma exchange_one_swaps_witness :
  exists a b m',
    getitem (grid 2 2 [1; 2; 3; 4]) (0, 0) = Ok a /\
    getitem (grid 2 2 [1; 2; 3; 4]) (1, 0) = Ok b /\
    in_bounds (grid 2 2 [1; 2; 3; 4]) (1, 0) /\
    Z.abs (fst (1, 0) - 0) + Z.abs (snd (1, 0) - 0) = 1 /\
    exchange_one (shape (grid 2 2 [1; 2; 3; 4])) (grid 2 2 [1; 2; 3; 4]) (0, 0, 1) =
      Ok m' /\
    shape m' = shape (grid 2 2 [1; 2; 3; 4]) /\
    getitem m' (0, 0) = Ok b /\ getitem m' (1, 0) = Ok a /\
    forall xy', in_bounds (grid 2 2 [1; 2; 3; 4]) xy' ->
                xy' <> (0, 0) -> xy' <> (1, 0) ->
                getitem m' xy' = getitem (grid 2 2 [1; 2; 3; 4]) xy'.
Proof.
  apply (exchange_one_swaps (grid 2 2 [1; 2; 3; 4]) 0 0 1 (1, 0)).
  - unfold ndarray_wf; simpl. lia.
  - split; simpl; lia.
  - reflexivity.
Defined.

(** ** The display can be read back *)

Lemma convert_to_rgb_eq d :
  ndarray_wf d ->
  convert_to_rgb d = Ok (mk_ndarray (shape d) (display_colour <$> data d)).
Proof.
  intros (Hx & Hy & Hlen). unfold convert_to_rgb.
  rewrite np_full_ok by assumption. cbn [bind].
  repeat (rewrite mask_assign_ok by reflexivity; cbn [bind shape data]).
  unfold ndarray_eq. cbn [shape data].
  rewrite <- Hlen, Nat2Z.id, display_colour_masks. reflexivity.
Qed.

Lemma display_colour_inj v w :
  valid_state v -> valid_state w -> display_colour v = display_colour w -> v = w.
Proof.
  unfold valid_state.
  intros [-> | [-> | [-> | ->]]] [-> | [-> | [-> | ->]]] H;
    try reflexivity; vm_compute in H; discriminate H.
Qed.

(** X13: on grids that hold only the four states, [convert_to_rgb] loses
    nothing: two such grids with the same picture are the same grid. *)
Theorem convert_to_rgb_injective d d' :
  ndarray_wf d -> ndarray_wf d' ->
  valid_grid d -> valid_grid d' ->
  convert_to_rgb d = convert_to_rgb d' -> d = d'.
Proof.
  intros Hwf Hwf' Hv Hv' E.
  rewrite (convert_to_rgb_eq d Hwf), (convert_to_rgb_eq d' Hwf') in E.
  injection E as Es Ed. destruct d as [sh l], d' as [sh' l'].
  cbn [shape data] in *. subst sh'. f_equal.
  unfold valid_grid in Hv, Hv'. cbn [data] in Hv, Hv'.
  clear Hwf Hwf'. revert l' Hv' Ed.
  induction Hv as [| v l Hvv Hl IH]; intros l' Hv' Ed.
  - destruct l'; [reflexivity | discriminate].
  - destruct Hv' as [| w l' Hw Hl']; [discriminate |].
    cbn [fmap list_fmap] in Ed. injection Ed as Ev El.
    f_equal; [apply display_colour_inj; assumption | apply IH; assumption].
Qed.

Lemma convert_to_rgb_injective_witness :
  grid 2 2 [1; 2; 3; 4] = grid 2 2 [1; 2; 3; 4].
Proof.
  apply (convert_to_rgb_injective (grid 2 2 [1; 2; 3; 4]) (grid 2 2 [1; 2; 3; 4])).
  - unfold ndarray_wf; simpl. lia.
  - unfold ndarray_wf; simpl. lia.
  - exact valid_grid_mixed_sim.
  - exact valid_grid_mixed_sim.
  - reflexivity.
Defined.

(** ** The census of a state over one step *)

Lemma advanced_Forall2 v0 t m m' :
  advanced v0 t m m' ->
  Forall2 (fun a b => b = a \/ (a = v0 /\ b = t)) (data m) (data m').
Proof.
  intros Hadv. apply Forall2_same_length_lookup_2.
  - symmetry. eapply advanced_length; eassumption.
  - intros i a b Ha Hb. destruct Hadv as [_ Hadv].
    destruct (Hadv i) as [E | [E1 E2]]; [left | right]; split || idtac; congruence.
Qed.

Lemma count_moved (v0 t w : Z) (l l' : list Z) :
  Forall2 (fun a b => b = a \/ (a = v0 /\ b = t)) l l' ->
  (w <> v0 -> length (filter (fun x => x = w) l) <= length (filter (fun x => x = w) l'))%nat /\
  (w <> t -> length (filter (fun x => x = w) l') <= length (filter (fun x => x = w) l))%nat.
Proof.
  induction 1 as [| a b l l' Hab Hl [IH1 IH2]]; [split; reflexivity |].
  rewrite !filter_cons.
  split; intros Hw; [specialize (IH1 Hw) | specialize (IH2 Hw)];
    destruct Hab as [-> | [-> ->]];
    repeat case_decide; cbn [length]; try lia; congruence.
Qed.

(** X14: over one [step], movement included, the number of Recovered sites
    never goes down and the number of Susceptible sites never goes up (a
    position may lose its Recovered state to a neighbour in the exchange,
    the grid as a whole does not). *)
Theorem step_census self g :
  sim_wf self ->
  exists s' g',
    step self g = Ok (s', g') /\
    (count_state RECOVER (self_map self) <= count_state RECOVER (self_map s'))%nat /\
    (count_state SUSCEPTIBLE (self_map s') <= count_state SUSCEPTIBLE (self_map self))%nat.
Proof.
  intros Hwf.
  destruct (step_structure self g Hwf)
    as (m1 & m2 & m3 & m4 & g' & A1 & A2 & A3 & _ & Hp & _ & ->).
  eexists. eexists. split; [reflexivity |]. cbn [self_map].
  rewrite !(count_state_permutation _ m3 m4 Hp).
  pose proof (count_moved _ _ RECOVER _ _ (advanced_Forall2 _ _ _ _ A1)) as [R1 _].
  pose proof (count_moved _ _ RECOVER _ _ (advanced_Forall2 _ _ _ _ A2)) as [R2 _].
  pose proof (count_moved _ _ RECOVER _ _ (advanced_Forall2 _ _ _ _ A3)) as [R3 _].
  pose proof (count_moved _ _ SUSCEPTIBLE _ _ (advanced_Forall2 _ _ _ _ A1)) as [_ S1].
  pose proof (count_moved _ _ SUSCEPTIBLE _ _ (advanced_Forall2 _ _ _ _ A2)) as [_ S2].
  pose proof (count_moved _ _ SUSCEPTIBLE _ _ (advanced_Forall2 _ _ _ _ A3)) as [_ S3].
  unfold count_state.
  specialize (R1 ltac:(discriminate)). specialize (R2 ltac:(discriminate)).
  specialize (R3 ltac:(discriminate)). specialize (S1 ltac:(discriminate)).
  specialize (S2 ltac:(discriminate)). specialize (S3 ltac:(discriminate)).
  split; lia.
Qed.

Lemma step_census_witness :
  exists s' g',
    step mixed_sim regress_state = Ok (s', g') /\
    (count_state RECOVER (self_map mixed_sim) <= count_state RECOVER (self_map s'))%nat /\
    (count_state SUSCEPTIBLE (self_map s') <= count_state SUSCEPTIBLE (self_map mixed_sim))%nat.
Proof.
  apply (step_census mixed_sim regress_state). exact sim_wf_mixed_sim.
Defined.
